(** * CareWell (Family Care) server: presence relay, OTP login, contacts,
      messages and exercise logging

    A shallow embedding of [server.js].  The handlers are functions from
    the request, the database and the session to a response, the new
    database, the new session and the relay calls they make; the presence
    registry is a finite map and the socket.io layer is a list of
    emissions. *)

From Stdlib Require Import ZArith QArith Qround Qabs Qpower String Ascii List Lia Lqa.
From stdpp Require Import gmap strings list fin_maps sorting.

Local Open Scope string_scope.
Local Open Scope list_scope.
Local Open Scope Z_scope.
Local Set Warnings "-register-all".

(* ===================================================================== *)
(** ** JavaScript values                                                  *)
(* ===================================================================== *)

Module Js.

(** A JavaScript number: a finite double is an exact rational; the
    non-finite values are kept apart.  [express.json()] hands the handler
    [Infinity] for a JSON numeral such as [1e999]. *)
Inductive number : Type :=
| Finite (q : Q)
| Infinity
| NegInfinity
| NaN.

Definition of_Z (z : Z) : number := Finite (inject_Z z).

(** [Math.floor] *)
Definition Math_floor (x : number) : number :=
  match x with
  | Finite q => of_Z (Qfloor q)
  | _ => x
  end.

(** [Math.max(a, b)] *)
Definition Math_max (a b : number) : number :=
  match a, b with
  | NaN, _ | _, NaN => NaN
  | Infinity, _ | _, Infinity => Infinity
  | NegInfinity, y => y
  | x, NegInfinity => x
  | Finite p, Finite q => if Qle_bool p q then Finite q else Finite p
  end.

(** The number is a mathematical integer [z]. *)
Definition is_int (x : number) (z : Z) : Prop := x = of_Z z.

Inductive value : Type :=
| VUndefined
| VNull
| VBool (b : bool)
| VNum (n : number)
| VStr (s : string)
| VObj (fields : list (string * value)).

Definition object : Type := list (string * value).

Definition VInt (z : Z) : value := VNum (of_Z z).

(** [!!v] *)
Definition truthy (v : value) : bool :=
  match v with
  | VUndefined | VNull => false
  | VBool b => b
  | VNum (Finite q) => negb (Qeq_bool q 0)
  | VNum NaN => false
  | VNum _ => true
  | VStr s => negb (String.eqb s "")
  | VObj _ => true
  end.

(** [a || b] *)
Definition or (a b : value) : value := if truthy a then a else b.

(** [typeof v === 'number'] *)
Definition is_number (v : value) : option number :=
  match v with
  | VNum n => Some n
  | _ => None
  end.

(** Decimal numeral of a non-negative integer, as ['' + n] prints an
    integer-valued number below 1e21. *)
Definition digit (d : Z) : ascii := ascii_of_nat (48 + Z.to_nat d).

Fixpoint digits_go (fuel : nat) (n : Z) (acc : string) : string :=
  match fuel with
  | O => acc
  | S fuel' =>
      let acc' := String (digit (n mod 10)) acc in
      if n / 10 =? 0 then acc' else digits_go fuel' (n / 10) acc'
  end.

Definition int_to_string (n : Z) : string :=
  if n <? 0 then String.append "-" (digits_go (S (Z.to_nat (Z.log2 (- n)))) (- n) "")
  else digits_go (S (Z.to_nat (Z.log2 n))) n "".

Definition is_digit (c : ascii) : bool :=
  let k := nat_of_ascii c in (48 <=? k)%nat && (k <=? 57)%nat.

End Js.
Export Js.

(* ===================================================================== *)
(** ** Double arithmetic and decimal numerals                             *)
(* ===================================================================== *)

(** JavaScript computes [a * b] and [a + b] on doubles: the exact result
    rounded to the nearest binary64 value, ties to the even significand.
    [binary64 x] is that rounding of the exact rational [x] (results stay
    far below the overflow threshold wherever it is used). *)
Definition pow2 (k : Z) : Q := Qpower 2 k.

(** The exponent [e] with [2^e <= x < 2^(e+1)], for [x > 0]. *)
Definition binade (x : Q) : Z :=
  if Qle_bool 1 x then Z.log2 (Qfloor x) else - Z.log2_up (Qceiling (/ x)).

(** The nearest integer, ties to even. *)
Definition round_even (t : Q) : Z :=
  let k := Qfloor t in
  match (t - inject_Z k ?= 1 # 2)%Q with
  | Lt => k
  | Gt => k + 1
  | Eq => if Z.even k then k else k + 1
  end.

Definition binary64 (x : Q) : Q :=
  if Qeq_bool x 0 then 0%Q
  else
    let a := Qabs x in
    let u := pow2 (Z.max (binade a) (-1022) - 52) in
    let m := (inject_Z (round_even (a / u)) * u)%Q in
    if Qle_bool 0 x then m else (- m)%Q.

(** The rational is a double: rounding leaves it as it is. *)
Definition is_binary64 (x : Q) : Prop := (binary64 x == x)%Q.

(** The double nearest to 0.3. *)
Definition double_0_3 : Q := 5404319552844595 # 18014398509481984.

(** Reading a decimal numeral: the number a string of digits denotes; the
    characters '0' to '9' have the codes 48 to 57. *)
Definition digit_value (c : ascii) : option Z :=
  let code := Z.of_nat (nat_of_ascii c) in
  if (48 <=? code) && (code <=? 57) then Some (code - 48) else None.

Fixpoint read_digits (s : string) (acc : Z) : option Z :=
  match s with
  | EmptyString => Some acc
  | String c s' =>
      match digit_value c with
      | Some d => read_digits s' (10 * acc + d)
      | None => None
      end
  end.

Definition decimal_value (s : string) : option Z :=
  match s with
  | EmptyString => None
  | _ => read_digits s 0
  end.

(* ===================================================================== *)
(** ** Online presence and the socket.io layer                            *)
(* ===================================================================== *)

(** The value stored in [onlineUsers]: [{ socketId, role }]. *)
Record presence : Type := { socketId : string; role : string }.

(** A socket after the [io.use] middleware: its id, and the [userId] and
    [userRole] taken from the handshake.  [userId] is the result of
    [parseInt(userId, 10)], an integer here. *)
Record socket : Type := { socket_id : string; userId : Z; userRole : string }.

(** What the server hands to socket.io: [io.emit(event, payload)] goes to
    every connected socket, [io.to(room).emit(event, payload)] to the
    sockets in [room].  Every connected socket is alone in the room named
    by its own id. *)
Inductive emission : Type :=
| io_emit (event : string) (payload : object)
| io_to_emit (room : string) (event : string) (payload : object).

(** The process-local state: the [onlineUsers] map and the sockets that
    are connected at this instant. *)
Record server : Type := {
  onlineUsers : gmap Z presence;
  connected : gset string
}.

Definition server_init : server := {| onlineUsers := ∅; connected := ∅ |}.

Definition presence_update (u : Z) (online : bool) : emission :=
  io_emit "presence:update" [("userId", VInt u); ("online", VBool online)].

(** [io.on('connection', socket => ...)] *)
Definition on_connection (s : socket) (srv : server) : server * list emission :=
  ({| onlineUsers :=
        <[userId s := {| socketId := socket_id s; role := userRole s |}]> (onlineUsers srv);
      connected := {[socket_id s]} ∪ connected srv |},
   [presence_update (userId s) true]).

(** [socket.on('disconnect', ...)] *)
Definition on_disconnect (s : socket) (srv : server) : server * list emission :=
  ({| onlineUsers := delete (userId s) (onlineUsers srv);
      connected := connected srv ∖ {[socket_id s]} |},
   [presence_update (userId s) false]).

(** [emitToUser(userId, event, payload)] *)
Definition emitToUser (reg : gmap Z presence) (u : Z) (event : string)
    (payload : object) : list emission :=
  match reg !! u with
  | Some target => [io_to_emit (socketId target) event payload]
  | None => []
  end.

(** The sockets an emission reaches. *)
Definition receivers (conn : gset string) (e : emission) : gset string :=
  match e with
  | io_emit _ _ => conn
  | io_to_emit room _ _ => if decide (room ∈ conn) then {[room]} else ∅
  end.

(** A call [emitToUser(userId, event, payload)] made by a handler. *)
Record push : Type := { to : Z; event : string; payload : object }.

Definition relay (reg : gmap Z presence) (p : push) : list emission :=
  emitToUser reg (to p) (event p) (payload p).

Definition relay_all (reg : gmap Z presence) (ps : list push) : list emission :=
  ps ≫= relay reg.

(** [onlineUsers.has(id)] *)
Definition isOnline (srv : server) (u : Z) : bool :=
  bool_decide (is_Some (onlineUsers srv !! u)).

(* ===================================================================== *)
(** ** The database                                                       *)
(* ===================================================================== *)

(** Rows of the tables created at start-up.  [users.id], [contacts.id],
    [messages.id] and [exercises.id] are AUTOINCREMENT keys; [otps.phone]
    and [settings.user_id] are primary keys, so these two tables are maps.
    A row holds the values as they were bound.  SQLite keeps a string bound
    to a TEXT column and a number bound to an INTEGER column as they are
    and converts other values on insert; where a statement below reads a
    column back, it is for values of the column's own kind. *)
Record user_row : Type := {
  row_id : Z;
  first_name : string;
  last_name : string;
  row_phone : string;
  row_role : string
}.

Record message_row : Type := {
  message_id : Z;
  from_user_id : Z;
  to_user_id : value;
  is_group : Z;
  content : value
}.

Record exercise_row : Type := {
  exercise_id : Z;
  exercise_user_id : Z;
  date : string;
  exercise_type : value;
  duration_min : number;
  fatigue_level : value;
  difficulty : value
}.

Record settings_row : Type := {
  elderly_notify_exercise : number;
  elderly_notify_checkup : number;
  family_notify_parent_done : number
}.

Record otp_row : Type := { row_code : string; expires_at : Z }.

Record db : Type := {
  users : list user_row;
  contacts : list (Z * Z);          (* (user_id, contact_user_id) *)
  messages : list message_row;
  exercises : list exercise_row;
  settings : gmap Z settings_row;
  otps : gmap string otp_row
}.

Definition db_init : db :=
  {| users := []; contacts := []; messages := []; exercises := [];
     settings := ∅; otps := ∅ |}.

(** The statements whose error argument a handler looks at.  Whether one
    fails is decided outside the program. *)
Inductive statement : Type :=
| SelectUserByPhone
| InsertUser
| UpdateUser
| SelectOtp
| ReplaceOtp
| InsertContact (user contact : Z)
| SelectContacts
| InsertMessage
| InsertExercise
| SelectSettings
| SelectFamilyContacts.

Definition faults : Type := statement → bool.

Definition no_faults : faults := λ _, false.

(** The next AUTOINCREMENT key. *)
Definition next_id (ids : list Z) : Z := 1 + foldr Z.max 0 ids.

(** [SELECT * FROM users WHERE phone = ?] *)
Definition user_by_phone (d : db) (p : string) : option user_row :=
  List.find (λ r, String.eqb (row_phone r) p) (users d).

(** [INSERT OR IGNORE INTO contacts (user_id, contact_user_id) VALUES (?,?)]
    under UNIQUE(user_id, contact_user_id) *)
Definition insert_contact (a b : Z) (d : db) : db :=
  if decide ((a, b) ∈ contacts d) then d
  else {| users := users d; contacts := contacts d ++ [(a, b)];
          messages := messages d; exercises := exercises d;
          settings := settings d; otps := otps d |}.

Definition default_settings : settings_row :=
  {| elderly_notify_exercise := of_Z 1;
     elderly_notify_checkup := of_Z 1;
     family_notify_parent_done := of_Z 1 |}.

(** [ensureSettings(userId)]: INSERT OR IGNORE INTO settings (user_id) *)
Definition ensureSettings (u : Z) (d : db) : db :=
  match settings d !! u with
  | Some _ => d
  | None =>
      {| users := users d; contacts := contacts d; messages := messages d;
         exercises := exercises d;
         settings := <[u := default_settings]> (settings d); otps := otps d |}
  end.

Definition set_otps (o : gmap string otp_row) (d : db) : db :=
  {| users := users d; contacts := contacts d; messages := messages d;
     exercises := exercises d; settings := settings d; otps := o |}.

Definition set_users (us : list user_row) (d : db) : db :=
  {| users := us; contacts := contacts d; messages := messages d;
     exercises := exercises d; settings := settings d; otps := otps d |}.

(* ===================================================================== *)
(** ** Requests, sessions and responses                                   *)
(* ===================================================================== *)

(** [req.session.user], as [rowToUser] builds it from a row (the handler
    calls it only after checking that the row is there). *)
Record user : Type := {
  user_id : Z;
  firstName : string;
  lastName : string;
  user_phone : string;
  user_role : string
}.

Definition rowToUser (row : user_row) : user :=
  {| user_id := row_id row; firstName := first_name row;
     lastName := last_name row; user_phone := row_phone row;
     user_role := row_role row |}.

Definition user_json (u : user) : value :=
  VObj [("id", VInt (user_id u)); ("firstName", VStr (firstName u));
        ("lastName", VStr (lastName u)); ("phone", VStr (user_phone u));
        ("role", VStr (user_role u))].

(** [res.json(body)] with status 200, or [res.status(s).json({ error })]. *)
Inductive response : Type :=
| Ok (body : object)
| Err (status : Z) (error : string).

Definition is_ok (r : response) : bool :=
  match r with Ok _ => true | Err _ _ => false end.

(** The names, the phone and the code of a body are strings; such a field
    is falsy when it is missing or empty. *)
Definition missing (s : string) : bool := String.eqb s "".

(* ===================================================================== *)
(** ** Auth routes                                                        *)
(* ===================================================================== *)

(** [generateAndStoreOtp(phone, cb)]: [random] is the value of
    [Math.random()], a double, [now] the value of [Date.now()].  The
    product and the sum are double operations.  Returns the code handed to
    the callback and the database after INSERT OR REPLACE; a failed store
    is only logged. *)
Definition generateAndStoreOtp (f : faults) (random : Q) (now : Z)
    (p : string) (d : db) : string * db :=
  let code :=
    int_to_string (Qfloor (binary64 (100000 + binary64 (random * 900000)))) in
  let expires := now + 1000 * 60 * 5 in
  (code,
   if f ReplaceOtp then d
   else set_otps (<[p := {| row_code := code; expires_at := expires |}]> (otps d)) d).

(** [POST /api/auth/request-otp]; [node_env] is NODE_ENV. *)
Definition post_auth_request_otp (f : faults) (node_env : string)
    (random : Q) (now : Z) (firstName lastName phone role : string)
    (d : db) : response * db :=
  if missing firstName || missing lastName || missing phone
  then (Err 400 "missing_fields", d)
  else
    let roleValue :=
      if String.eqb role "elderly" then "elderly"
      else if String.eqb role "family" then "family" else "elderly" in
    let reply code :=
      Ok [("ok", VBool true);
          ("devCode", if String.eqb node_env "production" then VUndefined
                      else VStr code)] in
    if f SelectUserByPhone then (Err 500 "db_error", d)
    else match user_by_phone d phone with
    | None =>
        if f InsertUser then (Err 500 "db_insert_error", d)
        else
          let lastID := next_id (row_id <$> users d) in
          let d1 := set_users (users d ++
                      [{| row_id := lastID; first_name := firstName;
                          last_name := lastName; row_phone := phone;
                          row_role := roleValue |}]) d in
          let d2 := ensureSettings lastID d1 in
          let '(code, d3) := generateAndStoreOtp f random now phone d2 in
          (reply code, d3)
    | Some row =>
        if f UpdateUser then (Err 500 "db_update_error", d)
        else
          let d1 := set_users
                      ((λ r, if row_id r =? row_id row
                             then {| row_id := row_id r; first_name := firstName;
                                     last_name := lastName; row_phone := row_phone r;
                                     row_role := roleValue |}
                             else r) <$> users d) d in
          let d2 := ensureSettings (row_id row) d1 in
          let '(code, d3) := generateAndStoreOtp f random now phone d2 in
          (reply code, d3)
    end.

(** [POST /api/auth/verify-otp]; [now] is [Date.now()], [sess] is
    [req.session.user].  Returns the response, the database and the
    session afterwards. *)
Definition post_auth_verify_otp (f : faults) (now : Z) (phone code : string)
    (d : db) (sess : option user) : response * db * option user :=
  if missing phone || missing code then (Err 400 "missing_fields", d, sess)
  else if f SelectOtp then (Err 500 "db_error", d, sess)
  else match otps d !! phone with
  | None => (Err 400 "otp_not_found", d, sess)
  | Some row =>
      if negb (String.eqb (row_code row) code)
      then (Err 400 "otp_invalid", d, sess)
      else if expires_at row <? now then (Err 400 "otp_expired", d, sess)
      else if f SelectUserByPhone then (Err 500 "user_not_found", d, sess)
      else match user_by_phone d phone with
      | None => (Err 500 "user_not_found", d, sess)
      | Some uRow =>
          let u := rowToUser uRow in
          (Ok [("ok", VBool true); ("user", user_json u)],
           set_otps (delete phone (otps d)) d,
           Some u)
      end
  end.

(* ===================================================================== *)
(** ** Contacts                                                           *)
(* ===================================================================== *)

(** [POST /api/contacts/add] behind [requireAuth]. *)
Definition post_contacts_add (f : faults) (sess : option user)
    (phone : string) (d : db) : response * db :=
  match sess with
  | None => (Err 401 "unauthorized", d)
  | Some me =>
      let userId := user_id me in
      if missing phone then (Err 400 "missing_phone", d)
      else if f SelectUserByPhone then (Err 500 "db_error", d)
      else match user_by_phone d phone with
      | None => (Err 404 "user_not_found", d)
      | Some row =>
          let otherId := row_id row in
          if otherId =? userId then (Err 400 "cannot_add_self", d)
          else
            (* ensureSettings(userId); ensureSettings(otherId); addLink() *)
            let d1 := ensureSettings otherId (ensureSettings userId d) in
            if f (InsertContact userId otherId) then (Err 500 "db_error", d1)
            else
              let d2 := insert_contact userId otherId d1 in
              if f (InsertContact otherId userId) then (Err 500 "db_error", d2)
              else (Ok [("ok", VBool true)], insert_contact otherId userId d2)
      end
  end.

(* ===================================================================== *)
(** ** Messages                                                           *)
(* ===================================================================== *)

(** [SELECT contact_user_id AS id FROM contacts WHERE user_id = ?].  SQLite
    answers it from the index of UNIQUE(user_id, contact_user_id), so the
    ids come in ascending order. *)
Definition contact_ids (d : db) (u : Z) : list Z :=
  merge_sort Z.le (snd <$> filter (λ c, c.1 = u) (contacts d)).

(** One [stmt.run([fromUserId, rid, content])] of the group branch. *)
Definition insert_group_message (fromUserId : Z) (content : value)
    (ms : list message_row) (rid : Z) : list message_row :=
  ms ++ [{| message_id := next_id (message_id <$> ms);
            from_user_id := fromUserId; to_user_id := VInt rid;
            is_group := 1; content := content |}].

Definition set_messages (ms : list message_row) (d : db) : db :=
  {| users := users d; contacts := contacts d; messages := ms;
     exercises := exercises d; settings := settings d; otps := otps d |}.

(** The key a body value names in [onlineUsers]: the map's keys are
    integers, so only an integer-valued number finds an entry. *)
Definition as_key (v : value) : option Z :=
  match v with
  | VNum (Finite q) =>
      if Qeq_bool q (inject_Z (Qfloor q)) then Some (Qfloor q) else None
  | _ => None
  end.

Definition group_payload (fromUserId rid : Z) (content : value) : object :=
  [("fromUserId", VInt fromUserId); ("toUserId", VInt rid);
   ("content", content); ("isGroup", VBool true)].

(** [POST /api/messages] behind [requireAuth].  Returns the response, the
    database afterwards and the [emitToUser] calls, in order.  In the
    direct branch a recipient without a [users] row violates the FOREIGN
    KEY of [to_user_id]; that is one of the failures [f InsertMessage]
    stands for. *)
Definition post_messages (f : faults) (sess : option user)
    (toUserId content isGroup : value) (d : db) : response * db * list push :=
  match sess with
  | None => (Err 401 "unauthorized", d, [])
  | Some me =>
      let fromUserId := user_id me in
      if negb (truthy content) then (Err 400 "missing_content", d, [])
      else if truthy isGroup then
        if f SelectContacts then (Err 500 "db_error", d, [])
        else
          let recipients := contact_ids d fromUserId in
          (Ok [("ok", VBool true)],
           set_messages
             (foldl (insert_group_message fromUserId content) (messages d) recipients) d,
           (λ rid, {| to := rid; event := "message:new";
                      payload := group_payload fromUserId rid content |})
             <$> recipients)
      else
        if negb (truthy toUserId) then (Err 400 "missing_toUserId", d, [])
        else if f InsertMessage then (Err 500 "db_error", d, [])
        else
          let lastID := next_id (message_id <$> messages d) in
          (Ok [("ok", VBool true); ("id", VInt lastID)],
           set_messages
             (messages d ++
                [{| message_id := lastID; from_user_id := fromUserId;
                    to_user_id := toUserId; is_group := 0; content := content |}]) d,
           match as_key toUserId with
           | Some u =>
               [{| to := u; event := "message:new";
                   payload := [("id", VInt lastID); ("fromUserId", VInt fromUserId);
                               ("toUserId", toUserId); ("content", content);
                               ("isGroup", VBool false)] |}]
           | None => []
           end)
  end.

(* ===================================================================== *)
(** ** Exercise                                                           *)
(* ===================================================================== *)

(** [SELECT u.id FROM contacts c JOIN users u ON u.id = c.contact_user_id
     WHERE c.user_id = ? AND u.role = 'family'].  The contact rows are
     taken from the index of UNIQUE(user_id, contact_user_id), so the ids
     come in ascending order. *)
Definition family_contact_ids (d : db) (u : Z) : list Z :=
  merge_sort Z.le
    (c ← contacts d;
     if decide (c.1 = u)
     then row_id <$> filter (λ r, row_id r = c.2 ∧ row_role r = "family") (users d)
     else []).

(** [notifyFamilyOfExercise(elderlyId, payload)] *)
Definition notifyFamilyOfExercise (f : faults) (elderlyId : Z)
    (payload : object) (d : db) : list push :=
  if f SelectFamilyContacts then []
  else (λ rid, {| to := rid; event := "exercise:completed";
                  payload := ("fromUserId", VInt elderlyId) :: payload |})
         <$> family_contact_ids d elderlyId.

(** [sRow.family_notify_parent_done === 1] *)
Definition is_one (n : number) : bool :=
  match n with
  | Finite q => Qeq_bool q 1
  | _ => false
  end.

Definition set_exercises (es : list exercise_row) (d : db) : db :=
  {| users := users d; contacts := contacts d; messages := messages d;
     exercises := es; settings := settings d; otps := otps d |}.

Definition exercise_payload (exerciseType : value) (duration : number)
    (fatigueLevel : value) : object :=
  [("exerciseType", exerciseType);
   ("duration", VNum (Math_floor duration));
   ("fatigueLevel", Js.or fatigueLevel VNull)].

(** [POST /api/exercise] behind [requireAuth]; [today] is the date part of
    [new Date().toISOString()].  Returns the response, the database
    afterwards and the [emitToUser] calls, in order. *)
Definition post_exercise (f : faults) (sess : option user) (today : string)
    (exerciseType duration fatigueLevel difficulty : value) (d : db)
    : response * db * list push :=
  match sess with
  | None => (Err 401 "unauthorized", d, [])
  | Some me =>
      let userId := user_id me in
      match truthy exerciseType, is_number duration with
      | true, Some dur =>
          if f InsertExercise then (Err 500 "db_error", d, [])
          else
            let lastID := next_id (exercise_id <$> exercises d) in
            let d' :=
              set_exercises
                (exercises d ++
                   [{| exercise_id := lastID; exercise_user_id := userId;
                       date := today; exercise_type := exerciseType;
                       duration_min := Math_max (of_Z 0) (Math_floor dur);
                       fatigue_level := Js.or fatigueLevel VNull;
                       difficulty := Js.or difficulty VNull |}]) d in
            let pushes :=
              if String.eqb (user_role me) "elderly" then
                let notifyEnabled :=
                  negb (f SelectSettings) &&
                  match settings d' !! userId with
                  | Some sRow => is_one (family_notify_parent_done sRow)
                  | None => false
                  end in
                if notifyEnabled
                then notifyFamilyOfExercise f userId
                       (exercise_payload exerciseType dur fatigueLevel) d'
                else []
              else [] in
            (Ok [("ok", VBool true); ("id", VInt lastID)], d', pushes)
      | _, _ => (Err 400 "missing_fields", d, [])
      end
  end.

(* ===================================================================== *)
(** ** Runs of the relay, and the schema's key constraints                *)
(* ===================================================================== *)

(** What happens to the relay: a socket connects, a socket disconnects,
    or a handler calls [emitToUser]. *)
Inductive input : Type :=
| Connect (s : socket)
| Disconnect (s : socket)
| Emit (u : Z) (event : string) (payload : object).

Definition step (srv : server) (i : input) : server * list emission :=
  match i with
  | Connect s => on_connection s srv
  | Disconnect s => on_disconnect s srv
  | Emit u ev p => (srv, emitToUser (onlineUsers srv) u ev p)
  end.

Fixpoint run (srv : server) (ins : list input) : server * list emission :=
  match ins with
  | [] => (srv, [])
  | i :: ins' =>
      let '(srv1, out1) := step srv i in
      let '(srv2, out2) := run srv1 ins' in
      (srv2, (out1 ++ out2)%list)
  end.

(** PRIMARY KEY of [users] and UNIQUE(user_id, contact_user_id) of
    [contacts]. *)
Definition keys_unique (d : db) : Prop :=
  NoDup (row_id <$> users d) ∧ NoDup (contacts d).

(** Every stored code is non-empty and belongs to a non-empty phone that
    has a [users] row: request-otp creates the row before the code. *)
Definition otps_wf (d : db) : Prop :=
  ∀ p row, otps d !! p = Some row →
    p ≠ "" ∧ row_code row ≠ "" ∧ is_Some (user_by_phone d p).

(** [c] is a contact of [u] whose [users] row has role family. *)
Definition is_family_contact (d : db) (u c : Z) : Prop :=
  (u, c) ∈ contacts d ∧
  ∃ r, r ∈ users d ∧ row_id r = c ∧ row_role r = "family".

(** The number is a non-negative integer. *)
Definition nonneg_integer (n : number) : Prop := ∃ z, 0 ≤ z ∧ is_int n z.

(** The number of [emitToUser] calls addressed to [c]. *)
Definition pushes_to (c : Z) (ps : list push) : nat :=
  length (filter (λ p, to p = c) ps).

(** Concrete data used in the examples below. *)
Definition somchai : user_row :=
  {| row_id := 1; first_name := "Somchai"; last_name := "Jaidee";
     row_phone := "0811111111"; row_role := "elderly" |}.

Definition malee : user_row :=
  {| row_id := 2; first_name := "Malee"; last_name := "Jaidee";
     row_phone := "0822222222"; row_role := "family" |}.

Definition db_family : db :=
  {| users := [somchai; malee]; contacts := [(1, 2); (2, 1)];
     messages := []; exercises := [];
     settings := <[1 := default_settings]> (<[2 := default_settings]> ∅);
     otps := <["0811111111" := {| row_code := "123456"; expires_at := 300000 |}]> ∅ |}.

(** The two users before either has added the other. *)
Definition db_init_two : db :=
  {| users := [somchai; malee]; contacts := [];
     messages := []; exercises := []; settings := ∅; otps := ∅ |}.

Definition phone_socket : socket :=
  {| socket_id := "sock-A"; userId := 1; userRole := "elderly" |}.

Definition tablet_socket : socket :=
  {| socket_id := "sock-B"; userId := 1; userRole := "elderly" |}.

(* ===================================================================== *)
(** ** The read routes and settings                                       *)
(* ===================================================================== *)

(** The answer of a route that returns data: [res.json(data)], or
    [res.status(s).json({ error })]. *)
Inductive reply (A : Type) : Type :=
| Reply (data : A)
| Fail (status : Z) (error : string).

Arguments Reply {A} data.
Arguments Fail {A} status error.

(** One element of the [contacts] array of [GET /api/contacts]:
    [{ id, firstName, lastName, phone, role, online }]. *)
Record contact_view : Type := { contact : user; online : bool }.

(** [FROM contacts c JOIN users u ON u.id = c.contact_user_id
     WHERE c.user_id = ?] *)
Definition contact_rows (d : db) (u : Z) : list user_row :=
  c ← contacts d;
  if decide (c.1 = u) then filter (λ r, row_id r = c.2) (users d) else [].

(** [ORDER BY u.first_name ASC] under the BINARY collation: byte-wise
    comparison.  Rows with equal first names come in an order SQL leaves
    open; the sort used here keeps them in join order. *)
Definition by_first_name : relation user_row :=
  λ a b, String.leb (first_name a) (first_name b) = true.

#[local] Instance by_first_name_dec a b : Decision (by_first_name a b).
Proof. unfold by_first_name. apply _. Defined.

(** [GET /api/contacts] behind [requireAuth]; [err] is the error of the
    query. *)
Definition get_contacts (err : bool) (srv : server) (sess : option user)
    (d : db) : reply (list contact_view) :=
  match sess with
  | None => Fail 401 "unauthorized"
  | Some me =>
      if err then Fail 500 "db_error"
      else Reply ((λ r, {| contact := rowToUser r;
                           online := isOnline srv (row_id r) |})
                    <$> merge_sort by_first_name (contact_rows d (user_id me)))
  end.

(** [ORDER BY id DESC LIMIT 1]: the row with the largest key. *)
Definition latest (rows : list exercise_row) : option exercise_row :=
  foldl (λ best r,
           match best with
           | Some b => if exercise_id r <? exercise_id b then Some b else Some r
           | None => Some r
           end) None rows.

(** [GET /api/exercise/today] behind [requireAuth]: [{ record: row || null }];
    [today] is the date part of [new Date().toISOString()]. *)
Definition get_exercise_today (err : bool) (sess : option user) (today : string)
    (d : db) : reply (option exercise_row) :=
  match sess with
  | None => Fail 401 "unauthorized"
  | Some me =>
      if err then Fail 500 "db_error"
      else Reply (latest (filter (λ r, exercise_user_id r = user_id me ∧ date r = today)
                            (exercises d)))
  end.

Definition set_settings (s : gmap Z settings_row) (d : db) : db :=
  {| users := users d; contacts := contacts d; messages := messages d;
     exercises := exercises d; settings := s; otps := otps d |}.

(** [typeof v === 'number' ? v : 1] *)
Definition number_or_1 (v : value) : number :=
  match is_number v with
  | Some n => n
  | None => of_Z 1
  end.

(** [GET /api/settings] behind [requireAuth]: [{ settings: row || {} }];
    [None] stands for the empty object. *)
Definition get_settings (err : bool) (sess : option user) (d : db)
    : reply (option settings_row) :=
  match sess with
  | None => Fail 401 "unauthorized"
  | Some me => if err then Fail 500 "db_error" else Reply (settings d !! user_id me)
  end.

(** [POST /api/settings] behind [requireAuth]: INSERT ... ON CONFLICT(user_id)
    DO UPDATE of the three toggles (a JSON body carries no NaN). *)
Definition post_settings (err : bool) (sess : option user)
    (elderly_notify_exercise elderly_notify_checkup family_notify_parent_done : value)
    (d : db) : response * db :=
  match sess with
  | None => (Err 401 "unauthorized", d)
  | Some me =>
      if err then (Err 500 "db_error", d)
      else
        (Ok [("ok", VBool true)],
         set_settings
           (<[user_id me :=
                {| elderly_notify_exercise := number_or_1 elderly_notify_exercise;
                   elderly_notify_checkup := number_or_1 elderly_notify_checkup;
                   family_notify_parent_done := number_or_1 family_notify_parent_done |}]>
              (settings d)) d)
  end.

(* ===================================================================== *)
(** ** Reachable relay states and further schema constraints              *)
(* ===================================================================== *)

(** The relay states socket.io can produce, with the sockets that are
    open: a connecting socket has an id no open socket has, and only an
    open socket disconnects. *)
Inductive reachable : list socket → server → Prop :=
| reachable_init : reachable [] server_init
| reachable_connect live srv s :
    reachable live srv →
    socket_id s ∉ socket_id <$> live →
    reachable (s :: live) (on_connection s srv).1
| reachable_disconnect live srv s :
    reachable live srv →
    s ∈ live →
    reachable (filter (λ s', socket_id s' ≠ socket_id s) live) (on_disconnect s srv).1.

(** Whether [u] is registered after the inputs [ins], from the last
    connect or disconnect that names [u]. *)
Definition online_after (u : Z) (before : bool) (ins : list input) : bool :=
  foldl (λ b i,
           match i with
           | Connect s => if decide (userId s = u) then true else b
           | Disconnect s => if decide (userId s = u) then false else b
           | Emit _ _ _ => b
           end) before ins.

(** UNIQUE on [users.phone]. *)
Definition phones_unique (d : db) : Prop := NoDup (row_phone <$> users d).

(** CHECK(role IN ('elderly','family')) on [users.role]. *)
Definition roles_valid (d : db) : Prop :=
  ∀ r, r ∈ users d → row_role r = "elderly" ∨ row_role r = "family".

(** No user is a contact of themselves. *)
Definition no_self_contact (d : db) : Prop := ∀ a, (a, a) ∉ contacts d.

(** Every contact row has its mirror row. *)
Definition contacts_symmetric (d : db) : Prop :=
  ∀ a b, (a, b) ∈ contacts d → (b, a) ∈ contacts d.

(** [roleValue] of request-otp. *)
Definition role_value (role : string) : string :=
  if String.eqb role "elderly" then "elderly"
  else if String.eqb role "family" then "family" else "elderly".

(** The row request-otp inserts for a new phone. *)
Definition inserted_row (firstName lastName phone role : string) (d : db) : user_row :=
  {| row_id := next_id (row_id <$> users d); first_name := firstName;
     last_name := lastName; row_phone := phone; row_role := role_value role |}.

(** What request-otp's UPDATE makes of a row. *)
Definition updated_row (firstName lastName role : string) (id : Z) (r : user_row)
    : user_row :=
  if row_id r =? id
  then {| row_id := row_id r; first_name := firstName; last_name := lastName;
          row_phone := row_phone r; row_role := role_value role |}
  else r.

Definition otp_reply (node_env code : string) : response :=
  Ok [("ok", VBool true);
      ("devCode", if String.eqb node_env "production" then VUndefined
                  else VStr code)].

(* ===================================================================== *)
(** * Properties                                                          *)
(* ===================================================================== *)

(** ** Presence registry *)

Section Presence.

Implicit Types (srv : server) (s : socket) (u : Z).

Lemma connect_registers srv s :
  onlineUsers (on_connection s srv).1 !! userId s
  = Some {| socketId := socket_id s; role := userRole s |}.
Proof. apply lookup_insert_eq. Qed.

Lemma connect_is_online srv s : isOnline (on_connection s srv).1 (userId s) = true.
Proof.
  unfold isOnline. apply bool_decide_eq_true. rewrite connect_registers. eauto.
Qed.

Lemma disconnect_is_offline srv s : isOnline (on_disconnect s srv).1 (userId s) = false.
Proof.
  unfold isOnline. apply bool_decide_eq_false. cbn.
  rewrite lookup_delete_eq. by intros [? ?].
Qed.

(** A second connect for the same user replaces the handle: the push goes
    to the room of the later socket. *)
Lemma reconnect_overwrites srv s1 s2 ev p :
  userId s1 = userId s2 →
  emitToUser (onlineUsers (on_connection s2 (on_connection s1 srv).1).1)
    (userId s2) ev p
  = [io_to_emit (socket_id s2) ev p].
Proof.
  intros _. unfold emitToUser. by rewrite connect_registers.
Qed.

(** After the second connect the push reaches the later socket and no
    other. *)
Lemma reconnect_push_reaches_latest srv s1 s2 ev p e :
  userId s1 = userId s2 →
  let srv' := (on_connection s2 (on_connection s1 srv).1).1 in
  e ∈ emitToUser (onlineUsers srv') (userId s2) ev p →
  receivers (connected srv') e = {[socket_id s2]}.
Proof.
  intros Hu srv' He. unfold srv' in He. rewrite reconnect_overwrites in He by done.
  apply list_elem_of_singleton in He as ->. cbn.
  rewrite decide_True; [done |]. set_solver.
Qed.

Lemma emitToUser_length reg u ev p : (length (emitToUser reg u ev p) ≤ 1)%nat.
Proof. unfold emitToUser. destruct (reg !! u); simpl; lia. Qed.

Lemma emitToUser_absent reg u ev p : reg !! u = None → emitToUser reg u ev p = [].
Proof. intros H. unfold emitToUser. by rewrite H. Qed.

Lemma emitToUser_present reg u ev p e :
  e ∈ emitToUser reg u ev p ↔
  ∃ target, reg !! u = Some target ∧ e = io_to_emit (socketId target) ev p.
Proof.
  unfold emitToUser. destruct (reg !! u) as [t|].
  - rewrite list_elem_of_singleton. split.
    + intros ->. by exists t.
    + by intros (t' & [= <-] & ->).
  - rewrite elem_of_nil. split; [done |]. by intros (t' & [=] & _).
Qed.

(** C1: user 1 connects from a first socket and then from a second one;
    when the first socket's disconnect arrives, the handler deletes the
    user's entry although it holds the second socket's handle.  The second
    socket is still connected, the user has no entry, and a push for the
    user is handed to no socket at all. *)
Theorem stale_disconnect_unregisters_latest srv s1 s2 ev p :
  userId s1 = userId s2 →
  socket_id s1 ≠ socket_id s2 →
  let srv' := (on_disconnect s1 (on_connection s2 (on_connection s1 srv).1).1).1 in
  socket_id s2 ∈ connected srv' ∧
  onlineUsers srv' !! userId s2 = None ∧
  isOnline srv' (userId s2) = false ∧
  emitToUser (onlineUsers srv') (userId s2) ev p = [].
Proof.
  intros Hu Hid. cbn zeta.
  assert (Hnone : onlineUsers
            (on_disconnect s1 (on_connection s2 (on_connection s1 srv).1).1).1
            !! userId s2 = None).
  { cbn. rewrite Hu. apply lookup_delete_eq. }
  split_and!.
  - cbn. set_solver.
  - exact Hnone.
  - unfold isOnline. apply bool_decide_eq_false. rewrite Hnone. by intros [? ?].
  - by apply emitToUser_absent.
Qed.

Lemma stale_disconnect_example :
  let srv' := (on_disconnect phone_socket
                 (on_connection tablet_socket
                    (on_connection phone_socket server_init).1).1).1 in
  socket_id tablet_socket ∈ connected srv' ∧
  onlineUsers srv' !! userId tablet_socket = None ∧
  isOnline srv' (userId tablet_socket) = false ∧
  emitToUser (onlineUsers srv') (userId tablet_socket) "message:new" [] = [].
Proof.
  apply (stale_disconnect_unregisters_latest server_init phone_socket tablet_socket).
  - reflexivity.
  - discriminate.
Defined.

(** C3: a push for a user without an entry emits nothing and leaves the
    server as it was, so whatever happens next, a connect of that user
    included, happens exactly as if the push had never been made. *)
Theorem emit_to_absent_is_dropped srv u ev p :
  onlineUsers srv !! u = None →
  step srv (Emit u ev p) = (srv, []) ∧
  (∀ rest, run srv (Emit u ev p :: rest) = run srv rest) ∧
  (∀ s, userId s = u →
     (run srv [Emit u ev p; Connect s]).2 = [presence_update u true]).
Proof.
  intros Habs.
  assert (Hstep : step srv (Emit u ev p) = (srv, [])).
  { cbn. by rewrite emitToUser_absent. }
  split_and!.
  - exact Hstep.
  - intros rest. cbn [run]. rewrite Hstep. by destruct (run srv rest).
  - intros s <-. cbn [run]. rewrite Hstep. reflexivity.
Qed.

Lemma emit_to_absent_example :
  onlineUsers server_init !! 1 = None ∧
  step server_init (Emit 1 "message:new" []) = (server_init, []) ∧
  (∀ rest, run server_init (Emit 1 "message:new" [] :: rest) = run server_init rest) ∧
  (∀ s, userId s = 1 →
     (run server_init [Emit 1 "message:new" []; Connect s]).2
     = [presence_update 1 true]).
Proof.
  split; [reflexivity |].
  apply (emit_to_absent_is_dropped server_init 1 "message:new" []).
  reflexivity.
Defined.

End Presence.

(** ** One-time passwords *)

Section Otp.

Implicit Types (f : faults) (d : db) (sess : option user).

Lemma missing_false s : missing s = false ↔ s ≠ "".
Proof. unfold missing. apply String.eqb_neq. Qed.

(** The numeral of a number between 100000 and 999999 is its six decimal
    digits. *)
Lemma int_to_string_six n :
  100000 ≤ n ≤ 999999 →
  int_to_string n =
    String (digit (n / 100000 mod 10)) (String (digit (n / 10000 mod 10))
   (String (digit (n / 1000 mod 10)) (String (digit (n / 100 mod 10))
   (String (digit (n / 10 mod 10)) (String (digit (n mod 10)) ""))))).
Proof.
  intros Hn. unfold int_to_string.
  destruct (Z.ltb_spec n 0) as [? | _]; [lia |].
  assert (Hlog : 16 ≤ Z.log2 n) by (apply Z.log2_le_pow2; lia).
  destruct (Z.to_nat (Z.log2 n)) as [|[|[|[|[|k]]]]] eqn:E; try lia.
  cbn [digits_go].
  rewrite !Z.div_div by lia. change (10 * 10) with 100.
  change (100 * 10) with 1000. change (1000 * 10) with 10000.
  change (10000 * 10) with 100000. change (100000 * 10) with 1000000.
  assert (H1 : (n / 10 =? 0) = false) by (apply Z.eqb_neq; Z.div_mod_to_equations; lia).
  assert (H2 : (n / 100 =? 0) = false) by (apply Z.eqb_neq; Z.div_mod_to_equations; lia).
  assert (H3 : (n / 1000 =? 0) = false) by (apply Z.eqb_neq; Z.div_mod_to_equations; lia).
  assert (H4 : (n / 10000 =? 0) = false) by (apply Z.eqb_neq; Z.div_mod_to_equations; lia).
  assert (H5 : (n / 100000 =? 0) = false) by (apply Z.eqb_neq; Z.div_mod_to_equations; lia).
  assert (H6 : (n / 1000000 =? 0) = true) by (apply Z.eqb_eq; Z.div_mod_to_equations; lia).
  by rewrite H1, H2, H3, H4, H5, H6.
Qed.

Lemma digit_is_digit n : is_digit (digit (n mod 10)) = true.
Proof.
  assert (H : 0 ≤ n mod 10 < 10) by (apply Z.mod_pos_bound; lia).
  assert (Hc : n mod 10 = 0 ∨ n mod 10 = 1 ∨ n mod 10 = 2 ∨ n mod 10 = 3 ∨
               n mod 10 = 4 ∨ n mod 10 = 5 ∨ n mod 10 = 6 ∨ n mod 10 = 7 ∨
               n mod 10 = 8 ∨ n mod 10 = 9) by lia.
  destruct Hc as [-> | [-> | [-> | [-> | [-> | [-> | [-> | [-> | [-> | ->]]]]]]]]];
    reflexivity.
Qed.

Lemma round_even_ge (K : Z) (t : Q) : (inject_Z K <= t)%Q -> K <= round_even t.
Proof.
  intros H. assert (Hk : K <= Qfloor t).
  { rewrite <- (Qfloor_Z K). by apply Qfloor_resp_le. }
  unfold round_even. destruct (_ ?= _)%Q; [destruct (Z.even _) | |]; lia.
Qed.

Lemma round_even_le (K : Z) (t : Q) : (t < inject_Z K + (1 # 2))%Q -> round_even t <= K.
Proof.
  intros H. pose proof (Qfloor_le t) as Hfl.
  assert (Hk : Qfloor t <= K).
  { assert (Hlt : (inject_Z (Qfloor t) < inject_Z (K + 1))%Q).
    { rewrite inject_Z_plus. change (inject_Z 1) with 1%Q. lra. }
    rewrite <- Zlt_Qlt in Hlt. lia. }
  unfold round_even.
  destruct (Z.eq_dec (Qfloor t) K) as [Heq | Hne].
  - assert (Hc : (t - inject_Z (Qfloor t) ?= 1 # 2)%Q = Lt).
    { apply (proj1 (Qlt_alt _ _)). rewrite Heq. lra. }
    rewrite Hc. lia.
  - destruct (_ ?= _)%Q; [destruct (Z.even _) | |]; lia.
Qed.

Lemma pow2_pos k : (0 < pow2 k)%Q.
Proof. apply Qpower_0_lt. reflexivity. Qed.

Lemma pow2_le_1 k : k <= 0 -> (pow2 k <= 1)%Q.
Proof.
  intros H. change 1%Q with (pow2 0). apply Qpower_le_compat_l; [done |].
  unfold Qle. simpl. lia.
Qed.

Lemma binade_comp (x y : Q) : (x == y)%Q -> binade x = binade y.
Proof.
  intros H. unfold binade.
  assert (H1 : Qle_bool 1 x = Qle_bool 1 y) by (apply Qleb_comp; [reflexivity | exact H]).
  assert (H2 : Qfloor x = Qfloor y) by (by apply Qfloor_comp).
  assert (H3 : Qceiling (/ x) = Qceiling (/ y)).
  { apply Qceiling_comp. by rewrite H. }
  by rewrite H1, H2, H3.
Qed.

(** Rounding on the grid of a known binade. *)
Lemma binary64_grid (x : Q) (e lo hi : Z) :
  (0 < x)%Q -> binade x = e -> -1022 <= e ->
  (inject_Z lo * pow2 (e - 52) <= x)%Q ->
  (x < (inject_Z hi + (1 # 2)) * pow2 (e - 52))%Q ->
  (inject_Z lo * pow2 (e - 52) <= binary64 x)%Q /\
  (binary64 x <= inject_Z hi * pow2 (e - 52))%Q.
Proof.
  intros Hx He Hmin Hlo Hhi. unfold binary64.
  assert (Hne : Qeq_bool x 0 = false).
  { destruct (Qeq_bool x 0) eqn:E; [| done]. apply Qeq_bool_iff in E. lra. }
  assert (Hpos : Qle_bool 0 x = true) by (apply Qle_bool_iff; lra).
  rewrite Hne, Hpos. cbv zeta.
  assert (Habs : (Qabs x == x)%Q) by (apply Qabs_pos; lra).
  assert (Hb : binade (Qabs x) = e).
  { rewrite <- He. by apply binade_comp. }
  rewrite Hb, Z.max_l by lia.
  pose proof (pow2_pos (e - 52)) as Hu. set (u := pow2 (e - 52)) in *.
  assert (H1 : lo <= round_even (Qabs x / u)).
  { apply round_even_ge. rewrite Habs. apply Qle_shift_div_l; [done |]. done. }
  assert (H2 : round_even (Qabs x / u) <= hi).
  { apply round_even_le. rewrite Habs. apply Qlt_shift_div_r; [done |]. done. }
  rewrite Zle_Qle in H1, H2. split; nra.
Qed.

Lemma binade_ge_1 (x : Q) : (1 <= x)%Q -> binade x = Z.log2 (Qfloor x).
Proof.
  intros H. unfold binade. apply Qle_bool_iff in H. by rewrite H.
Qed.

Lemma binade_lt_1 (x : Q) : (x < 1)%Q -> binade x = - Z.log2_up (Qceiling (/ x)).
Proof.
  intros H. unfold binade. destruct (Qle_bool 1 x) eqn:E; [| done].
  apply Qle_bool_iff in E. lra.
Qed.

Lemma binade_between (x : Q) (a b : Z) :
  1 <= a -> (inject_Z a <= x)%Q -> (x <= inject_Z b)%Q ->
  Z.log2 a <= binade x <= Z.log2 b.
Proof.
  intros Ha Hax Hxb.
  assert (H1 : (1 <= x)%Q).
  { eapply Qle_trans; [| exact Hax]. change 1%Q with (inject_Z 1).
    by rewrite <- Zle_Qle. }
  rewrite binade_ge_1 by done.
  assert (a <= Qfloor x) by (rewrite <- (Qfloor_Z a); by apply Qfloor_resp_le).
  assert (Qfloor x <= b) by (rewrite <- (Qfloor_Z b); by apply Qfloor_resp_le).
  split; by apply Z.log2_le_mono.
Qed.

Lemma binade_small (x : Q) (b : Z) :
  (0 < x)%Q -> (x <= inject_Z b)%Q -> 1 <= b -> binade x <= Z.log2 b.
Proof.
  intros Hx Hxb Hb. destruct (Qlt_le_dec x 1) as [Hlt | Hge].
  - rewrite binade_lt_1 by done.
    pose proof (Z.log2_up_nonneg (Qceiling (/ x))). pose proof (Z.log2_nonneg b). lia.
  - rewrite binade_ge_1 by done. apply Z.log2_le_mono.
    rewrite <- (Qfloor_Z b). by apply Qfloor_resp_le.
Qed.

Lemma round_even_succ (t : Q) : (inject_Z (round_even t) <= t + 1)%Q.
Proof.
  pose proof (Qfloor_le t) as Hfl.
  assert (H : round_even t <= Qfloor t + 1).
  { unfold round_even. destruct (_ ?= _)%Q; [destruct (Z.even _) | |]; lia. }
  rewrite Zle_Qle, inject_Z_plus in H. change (inject_Z 1) with 1%Q in H. lra.
Qed.

(** Below 2^19 rounding moves a positive number by at most 1. *)
Lemma binary64_small (x : Q) :
  (0 < x)%Q -> (x <= 524288)%Q -> (0 <= binary64 x)%Q /\ (binary64 x <= x + 1)%Q.
Proof.
  intros Hx Hle. unfold binary64.
  assert (Hne : Qeq_bool x 0 = false).
  { destruct (Qeq_bool x 0) eqn:E; [| done]. apply Qeq_bool_iff in E. lra. }
  assert (Hpos : Qle_bool 0 x = true) by (apply Qle_bool_iff; lra).
  rewrite Hne, Hpos. cbv zeta.
  assert (Habs : (Qabs x == x)%Q) by (apply Qabs_pos; lra).
  assert (Hb : binade (Qabs x) <= 19).
  { rewrite (binade_comp _ _ Habs). change 19 with (Z.log2 524288).
    apply binade_small; [done | | lia]. by change (inject_Z 524288) with 524288%Q. }
  set (u := pow2 (Z.max (binade (Qabs x)) (-1022) - 52)).
  assert (Hu0 : (0 < u)%Q) by apply pow2_pos.
  assert (Hu1 : (u <= 1)%Q) by (apply pow2_le_1; lia).
  set (t := (Qabs x / u)%Q).
  assert (Ht : (t * u == x)%Q).
  { unfold t. rewrite Habs. field. lra. }
  assert (Ht0 : (0 <= t)%Q).
  { unfold t. apply Qle_shift_div_l; [done |]. rewrite Habs. lra. }
  assert (H0 : 0 <= round_even t) by (apply round_even_ge; by change (inject_Z 0) with 0%Q).
  pose proof (round_even_succ t) as H1.
  rewrite Zle_Qle in H0. change (inject_Z 0) with 0%Q in H0.
  split; nra.
Qed.

Lemma binary64_form (x : Q) :
  (0 < x)%Q ->
  exists k : Z,
    (binary64 x == inject_Z k * pow2 (Z.max (binade x) (-1022) - 52))%Q.
Proof.
  intros Hx. unfold binary64.
  assert (Hne : Qeq_bool x 0 = false).
  { destruct (Qeq_bool x 0) eqn:E; [| done]. apply Qeq_bool_iff in E. lra. }
  assert (Hpos : Qle_bool 0 x = true) by (apply Qle_bool_iff; lra).
  rewrite Hne, Hpos. cbv zeta.
  assert (Habs : (Qabs x == x)%Q) by (apply Qabs_pos; lra).
  rewrite (binade_comp _ _ Habs). by eexists.
Qed.

(** A double below 1 is at most 1 - 2^-53. *)
Lemma double_below_one (r : Q) :
  (0 <= r)%Q -> (r < 1)%Q -> (binary64 r == r)%Q ->
  (r <= 9007199254740991 # 9007199254740992)%Q.
Proof.
  intros H0 H1 Hfix. destruct (Qlt_le_dec r (1 # 2)) as [Hsmall | Hbig]; [lra |].
  assert (Hinv1 : (1 < / r)%Q).
  { apply Qlt_shift_inv_l; lra. }
  assert (Hinv2 : (/ r <= 2)%Q).
  { apply Qle_shift_inv_r; lra. }
  assert (Hc : Qceiling (/ r) = 2).
  { pose proof (Qle_ceiling (/ r)) as Hc1. pose proof (Qceiling_lt (/ r)) as Hc2.
    assert (1 < Qceiling (/ r)).
    { rewrite Zlt_Qlt. change (inject_Z 1) with 1%Q. lra. }
    assert (Qceiling (/ r) - 1 < 2).
    { rewrite Zlt_Qlt. change (inject_Z 2) with 2%Q. lra. }
    lia. }
  assert (Hb : binade r = -1).
  { rewrite binade_lt_1 by done. by rewrite Hc. }
  assert (Hu : (pow2 (-1 - 52) == 1 # 9007199254740992)%Q) by reflexivity.
  destruct (binary64_form r) as [k Hk]; [lra |].
  rewrite Hfix, Hb in Hk. change (Z.max (-1) (-1022)) with (-1) in Hk.
  rewrite Hu in Hk.
  assert (Hlt : (inject_Z k < inject_Z 9007199254740992)%Q).
  { change (inject_Z 9007199254740992) with 9007199254740992%Q. lra. }
  rewrite <- Zlt_Qlt in Hlt.
  assert (Hle : k <= 9007199254740991) by lia.
  rewrite Zle_Qle in Hle.
  change (inject_Z 9007199254740991) with 9007199254740991%Q in Hle. lra.
Qed.

(** [Math.floor(100000 + Math.random() * 900000)] in double arithmetic, for
    a double in [0, 1). *)
Lemma otp_number_range (r : Q) :
  (0 <= r)%Q -> (r < 1)%Q -> is_binary64 r ->
  100000 <= Qfloor (binary64 (100000 + binary64 (r * 900000))) <= 999999.
Proof.
  intros H0 H1 Hfix. pose proof (double_below_one r H0 H1 Hfix) as Hr.
  set (p := (r * 900000)%Q).
  assert (Hp0 : (0 <= p)%Q) by (unfold p; lra).
  assert (Hp1 : (p <= 900000 * (9007199254740991 # 9007199254740992))%Q)
    by (unfold p; lra).
  assert (HP : (0 <= binary64 p)%Q /\ (binary64 p <= 7730941132799999 # 8589934592)%Q).
  { destruct (Qlt_le_dec 0 p) as [Hpos | Hzero].
    - destruct (Qlt_le_dec 524288 p) as [Hbig | Hsmall].
      + assert (Hb : binade p = 19).
        { pose proof (binade_between p 524288 900000) as Hbb.
          change (Z.log2 524288) with 19 in Hbb. change (Z.log2 900000) with 19 in Hbb.
          change (inject_Z 524288) with 524288%Q in Hbb.
          change (inject_Z 900000) with 900000%Q in Hbb.
          assert (19 <= binade p <= 19); [| lia]. apply Hbb; [lia | lra | lra]. }
        assert (Hu : (pow2 (19 - 52) == 1 # 8589934592)%Q) by reflexivity.
        destruct (binary64_grid p 19 4503599627370496 7730941132799999) as [Hlo Hhi];
          try done.
        * rewrite Hu. change (inject_Z 4503599627370496) with 4503599627370496%Q. lra.
        * rewrite Hu. change (inject_Z 7730941132799999) with 7730941132799999%Q. lra.
        * rewrite Hu in Hlo, Hhi.
          change (inject_Z 4503599627370496) with 4503599627370496%Q in Hlo.
          change (inject_Z 7730941132799999) with 7730941132799999%Q in Hhi. split; lra.
      + destruct (binary64_small p Hpos Hsmall) as [Hlo Hhi]. split; lra.
    - assert (Hz : (p == 0)%Q) by lra.
      assert (Hb : (binary64 p == 0)%Q).
      { unfold binary64. apply Qeq_bool_iff in Hz. by rewrite Hz. }
      rewrite Hb. split; lra. }
  destruct HP as [HP0 HP1].
  set (s := (100000 + binary64 p)%Q).
  assert (Hs0 : (100000 <= s)%Q) by (unfold s; lra).
  assert (Hs1 : (s <= 8589934591999999 # 8589934592)%Q) by (unfold s; lra).
  assert (Hb : 16 <= binade s <= 19).
  { pose proof (binade_between s 100000 1000000) as Hbb.
    change (Z.log2 100000) with 16 in Hbb. change (Z.log2 1000000) with 19 in Hbb.
    change (inject_Z 100000) with 100000%Q in Hbb.
    change (inject_Z 1000000) with 1000000%Q in Hbb.
    apply Hbb; [lia | lra | lra]. }
  assert (HS : (100000 <= binary64 s)%Q /\ (binary64 s <= 8589934591999999 # 8589934592)%Q).
  { assert (Hcases : binade s = 16 \/ binade s = 17 \/ binade s = 18 \/ binade s = 19)
      by lia.
    destruct Hcases as [He | [He | [He | He]]].
    - assert (Hu : (pow2 (16 - 52) == 1 # 68719476736)%Q) by reflexivity.
      destruct (binary64_grid s 16 6871947673600000 68719476735999992) as [Hlo Hhi]; try done.
      + lra.
      + rewrite Hu. change (inject_Z 6871947673600000) with 6871947673600000%Q. lra.
      + rewrite Hu. change (inject_Z 68719476735999992) with 68719476735999992%Q. lra.
      + rewrite Hu in Hlo, Hhi.
        change (inject_Z 6871947673600000) with 6871947673600000%Q in Hlo.
        change (inject_Z 68719476735999992) with 68719476735999992%Q in Hhi. split; lra.
    - assert (Hu : (pow2 (17 - 52) == 1 # 34359738368)%Q) by reflexivity.
      destruct (binary64_grid s 17 3435973836800000 34359738367999996) as [Hlo Hhi]; try done.
      + lra.
      + rewrite Hu. change (inject_Z 3435973836800000) with 3435973836800000%Q. lra.
      + rewrite Hu. change (inject_Z 34359738367999996) with 34359738367999996%Q. lra.
      + rewrite Hu in Hlo, Hhi.
        change (inject_Z 3435973836800000) with 3435973836800000%Q in Hlo.
        change (inject_Z 34359738367999996) with 34359738367999996%Q in Hhi. split; lra.
    - assert (Hu : (pow2 (18 - 52) == 1 # 17179869184)%Q) by reflexivity.
      destruct (binary64_grid s 18 1717986918400000 17179869183999998) as [Hlo Hhi]; try done.
      + lra.
      + rewrite Hu. change (inject_Z 1717986918400000) with 1717986918400000%Q. lra.
      + rewrite Hu. change (inject_Z 17179869183999998) with 17179869183999998%Q. lra.
      + rewrite Hu in Hlo, Hhi.
        change (inject_Z 1717986918400000) with 1717986918400000%Q in Hlo.
        change (inject_Z 17179869183999998) with 17179869183999998%Q in Hhi. split; lra.
    - assert (Hu : (pow2 (19 - 52) == 1 # 8589934592)%Q) by reflexivity.
      destruct (binary64_grid s 19 858993459200000 8589934591999999) as [Hlo Hhi]; try done.
      + lra.
      + rewrite Hu. change (inject_Z 858993459200000) with 858993459200000%Q. lra.
      + rewrite Hu. change (inject_Z 8589934591999999) with 8589934591999999%Q. lra.
      + rewrite Hu in Hlo, Hhi.
        change (inject_Z 858993459200000) with 858993459200000%Q in Hlo.
        change (inject_Z 8589934591999999) with 8589934591999999%Q in Hhi. split; lra.
  }
  destruct HS as [HS0 HS1]. split.
  - rewrite <- (Qfloor_Z 100000) at 1. apply Qfloor_resp_le.
    by change (inject_Z 100000) with 100000%Q.
  - assert (H : Qfloor (binary64 s) < 1000000); [| lia].
    rewrite Zlt_Qlt. eapply Qle_lt_trans; [apply Qfloor_le |].
    change (inject_Z 1000000) with 1000000%Q. lra.
Qed.

(** Every failed verification leaves the database and the session as they
    were. *)
Lemma verify_failure_changes_nothing f now phone code d sess :
  let res := post_auth_verify_otp f now phone code d sess in
  is_ok res.1.1 = false → res.1.2 = d ∧ res.2 = sess.
Proof.
  unfold post_auth_verify_otp.
  destruct (missing phone || missing code); [done |].
  destruct (f SelectOtp); [done |].
  destruct (otps d !! phone) as [row|]; [| done].
  destruct (negb _); [done |].
  destruct (expires_at row <? now); [done |].
  destruct (f SelectUserByPhone); [done |].
  destruct (user_by_phone d phone); [| done].
  cbn. discriminate.
Qed.

(** Without a stored record the answer is otp_not_found. *)
Lemma verify_without_record f now phone code d sess :
  missing phone = false → missing code = false → f SelectOtp = false →
  otps d !! phone = None →
  (post_auth_verify_otp f now phone code d sess).1.1 = Err 400 "otp_not_found".
Proof.
  intros Hp Hc Hf Hnone. unfold post_auth_verify_otp.
  by rewrite Hp, Hc, Hf, Hnone.
Qed.

(** C2, as the code has it: verification succeeds exactly when a record is
    stored for the phone, the submitted code equals the stored code and the
    current time is not after the stored expiry ([now <= expiry], the
    expiry instant included); on success the session holds the phone's
    user, the record is deleted, and verifying again with the same code
    fails with otp_not_found. *)
Theorem verify_otp_succeeds_iff f now phone code d sess :
  otps_wf d → f SelectOtp = false → f SelectUserByPhone = false →
  let res := post_auth_verify_otp f now phone code d sess in
  (is_ok res.1.1 = true ↔
     ∃ row, otps d !! phone = Some row ∧ row_code row = code ∧
            now ≤ expires_at row) ∧
  (is_ok res.1.1 = true →
     (∃ uRow, user_by_phone d phone = Some uRow ∧
              res.1.1 = Ok [("ok", VBool true); ("user", user_json (rowToUser uRow))] ∧
              res.2 = Some (rowToUser uRow)) ∧
     otps res.1.2 !! phone = None ∧
     ∀ now' sess',
       (post_auth_verify_otp f now' phone code res.1.2 sess').1.1
       = Err 400 "otp_not_found").
Proof.
  intros Hwf Hf1 Hf2. cbn zeta.
  remember (post_auth_verify_otp f now phone code d sess) as res eqn:Hres.
  unfold post_auth_verify_otp in Hres. rewrite Hf1, Hf2 in Hres.
  destruct (missing phone || missing code) eqn:Hmiss.
  { subst res. split; [| done]. split; [done |]. intros (row & Hrow & Hcode & _).
    destruct (Hwf _ _ Hrow) as (Hp & Hc & _). subst code.
    apply orb_true_iff in Hmiss as [Hm | Hm];
      apply String.eqb_eq in Hm; congruence. }
  apply orb_false_iff in Hmiss as [Hmp Hmc].
  destruct (otps d !! phone) as [row|] eqn:Hrow.
  2: { subst res. split; [| done]. split; [done |]. by intros (row & [=] & _). }
  destruct (String.eqb_spec (row_code row) code) as [Hcode | Hcode];
    cbn [negb] in Hres.
  2: { subst res. split; [| done]. split; [done |].
       intros (row' & [= <-] & ? & _). done. }
  destruct (Z.ltb_spec (expires_at row) now) as [Hexp | Hexp].
  { subst res. split; [| done]. split; [done |].
    intros (row' & [= <-] & _ & ?). lia. }
  destruct (Hwf _ _ Hrow) as (_ & _ & [uRow HuRow]). rewrite HuRow in Hres.
  subst res. cbn. split.
  - split; [| done]. intros _. by exists row.
  - intros _. split_and!.
    + by exists uRow.
    + apply lookup_delete_eq.
    + intros now' sess'. apply verify_without_record; try done.
      cbn. apply lookup_delete_eq.
Qed.

Lemma db_family_otps_wf : otps_wf db_family.
Proof.
  intros p row. unfold db_family. cbn [otps].
  destruct (decide (p = "0811111111")) as [-> | Hne].
  - rewrite lookup_insert_eq. intros [= <-]. cbn. split_and!; [done | done |].
    by eexists.
  - rewrite lookup_insert_ne by done. by rewrite lookup_empty.
Qed.

Lemma verify_otp_succeeds_iff_example :
  let res := post_auth_verify_otp no_faults 1000 "0811111111" "123456" db_family None in
  (is_ok res.1.1 = true ↔
     ∃ row, otps db_family !! "0811111111" = Some row ∧ row_code row = "123456" ∧
            1000 ≤ expires_at row) ∧
  (is_ok res.1.1 = true →
     (∃ uRow, user_by_phone db_family "0811111111" = Some uRow ∧
              res.1.1 = Ok [("ok", VBool true); ("user", user_json (rowToUser uRow))] ∧
              res.2 = Some (rowToUser uRow)) ∧
     otps res.1.2 !! "0811111111" = None ∧
     ∀ now' sess',
       (post_auth_verify_otp no_faults now' "0811111111" "123456" res.1.2 sess').1.1
       = Err 400 "otp_not_found").
Proof.
  apply (verify_otp_succeeds_iff no_faults 1000 "0811111111" "123456" db_family None).
  - exact db_family_otps_wf.
  - reflexivity.
  - reflexivity.
Defined.

(** C2, as stated, fails at the expiry instant: with [now] equal to the
    stored expiry the code accepts the verification, although [now] is not
    strictly before the expiry. *)
Lemma verify_otp_at_expiry_instant :
  ¬ (is_ok (post_auth_verify_otp no_faults 300000 "0811111111" "123456"
              db_family None).1.1 = true ↔
     ∃ row, otps db_family !! "0811111111" = Some row ∧
            row_code row = "123456" ∧ 300000 < expires_at row).
Proof.
  intros [Hok _].
  destruct (Hok eq_refl) as (row & Hrow & _ & Hlt).
  vm_compute in Hrow. injection Hrow as <-. cbn in Hlt. lia.
Qed.

(** C7: with a record stored for the phone, a submitted code that differs
    from the stored one is answered otp_invalid, and the stored code
    submitted after the expiry is answered otp_expired; in both cases, as
    after every failed verification, the record and the rest of the
    database are untouched and the session is what it was. *)
Theorem verify_otp_failure_keeps_record f now phone code d sess row :
  missing phone = false → missing code = false → f SelectOtp = false →
  otps d !! phone = Some row →
  let res := post_auth_verify_otp f now phone code d sess in
  (row_code row ≠ code → res = (Err 400 "otp_invalid", d, sess)) ∧
  (row_code row = code → expires_at row < now →
     res = (Err 400 "otp_expired", d, sess)) ∧
  (is_ok res.1.1 = false →
     res.1.2 = d ∧ otps res.1.2 !! phone = Some row ∧ res.2 = sess).
Proof.
  intros Hp Hc Hf Hrow. cbn zeta. split_and!.
  - intros Hne. unfold post_auth_verify_otp. rewrite Hp, Hc, Hf, Hrow. cbn.
    apply String.eqb_neq in Hne. by rewrite Hne.
  - intros Heq Hexp. unfold post_auth_verify_otp. rewrite Hp, Hc, Hf, Hrow. cbn.
    apply String.eqb_eq in Heq. rewrite Heq. cbn.
    apply Z.ltb_lt in Hexp. by rewrite Hexp.
  - intros Hfail.
    destruct (verify_failure_changes_nothing f now phone code d sess Hfail)
      as [Hd Hs].
    by rewrite Hd, Hs.
Qed.

Lemma verify_otp_failure_example :
  let res := post_auth_verify_otp no_faults 300001 "0811111111" "123456"
               db_family None in
  ("123456" ≠ "123456" → res = (Err 400 "otp_invalid", db_family, None)) ∧
  ("123456" = "123456" → 300000 < 300001 →
     res = (Err 400 "otp_expired", db_family, None)) ∧
  (is_ok res.1.1 = false →
     res.1.2 = db_family ∧
     otps res.1.2 !! "0811111111"
       = Some {| row_code := "123456"; expires_at := 300000 |} ∧
     res.2 = None).
Proof.
  apply (verify_otp_failure_keeps_record no_faults 300001 "0811111111" "123456"
           db_family None {| row_code := "123456"; expires_at := 300000 |}).
  - reflexivity.
  - reflexivity.
  - reflexivity.
  - reflexivity.
Defined.

Lemma digit_value_digit (k : Z) : 0 ≤ k ≤ 9 → digit_value (digit k) = Some k.
Proof.
  intros H.
  assert (Hc : k = 0 ∨ k = 1 ∨ k = 2 ∨ k = 3 ∨ k = 4 ∨ k = 5 ∨ k = 6 ∨ k = 7 ∨
               k = 8 ∨ k = 9) by lia.
  destruct Hc as [-> | [-> | [-> | [-> | [-> | [-> | [-> | [-> | [-> | ->]]]]]]]]];
    reflexivity.
Qed.

(** Reading back the numeral of a six-digit number gives the number. *)
Lemma decimal_value_six n :
  100000 ≤ n ≤ 999999 → decimal_value (int_to_string n) = Some n.
Proof.
  intros Hn. rewrite int_to_string_six by done. cbn [decimal_value read_digits].
  assert (Hd : ∀ m, 0 ≤ m mod 10 ≤ 9).
  { intros m. pose proof (Z.mod_pos_bound m 10). lia. }
  rewrite !digit_value_digit by apply Hd. f_equal.
  Z.div_mod_to_equations. lia.
Qed.

(** C6: issuing a code for a phone, with [Math.random()] any double in
    [0, 1), stores a string of six decimal digits that reads as a number
    between 100000 and 999999, with an expiry 5 minutes (300000 ms) after
    the issuance time; the record replaces whatever was stored for that
    phone, the other phones keep theirs, and from then on a verification
    for the phone with any other code fails. *)
Theorem otp_issuance_stores_newest f random now phone d :
  f ReplaceOtp = false →
  (0 <= random)%Q → (random < 1)%Q → is_binary64 random →
  let code := (generateAndStoreOtp f random now phone d).1 in
  let d' := (generateAndStoreOtp f random now phone d).2 in
  (∃ n, 100000 ≤ n ≤ 999999 ∧ decimal_value code = Some n) ∧
  String.length code = 6%nat ∧
  Forall (λ c, is_digit c = true) (list_ascii_of_string code) ∧
  otps d' !! phone = Some {| row_code := code; expires_at := now + 300000 |} ∧
  (∀ p, p ≠ phone → otps d' !! p = otps d !! p) ∧
  (∀ f' now' c sess, c ≠ code →
     is_ok (post_auth_verify_otp f' now' phone c d' sess).1.1 = false).
Proof.
  intros Hf H0 H1 Hdbl. cbn zeta. unfold generateAndStoreOtp. rewrite Hf.
  cbn [fst snd].
  pose proof (otp_number_range random H0 H1 Hdbl) as Hn.
  set (n := Qfloor (binary64 (100000 + binary64 (random * 900000)))) in *.
  assert (Hlook : otps (set_otps (<[phone := {| row_code := int_to_string n;
                     expires_at := now + 1000 * 60 * 5 |}]> (otps d)) d) !! phone
                  = Some {| row_code := int_to_string n; expires_at := now + 300000 |}).
  { cbn. apply lookup_insert_eq. }
  split_and!.
  - exists n. split; [done |]. by apply decimal_value_six.
  - by rewrite int_to_string_six.
  - rewrite int_to_string_six by done. cbn [list_ascii_of_string].
    repeat (apply Forall_cons; split; [apply digit_is_digit |]).
    apply Forall_nil_2.
  - exact Hlook.
  - intros p Hp. cbn. by rewrite lookup_insert_ne.
  - intros f' now' c sess Hc. unfold post_auth_verify_otp.
    destruct (missing phone || missing c); [done |].
    destruct (f' SelectOtp); [done |].
    rewrite Hlook. cbn [row_code].
    apply not_eq_sym, String.eqb_neq in Hc. by rewrite Hc.
Qed.

Lemma otp_issuance_example :
  let code := (generateAndStoreOtp no_faults double_0_3 1000 "0811111111" db_family).1 in
  let d' := (generateAndStoreOtp no_faults double_0_3 1000 "0811111111" db_family).2 in
  (∃ n, 100000 ≤ n ≤ 999999 ∧ decimal_value code = Some n) ∧
  String.length code = 6%nat ∧
  Forall (λ c, is_digit c = true) (list_ascii_of_string code) ∧
  otps d' !! "0811111111" = Some {| row_code := code; expires_at := 1000 + 300000 |} ∧
  (∀ p, p ≠ "0811111111" → otps d' !! p = otps db_family !! p) ∧
  (∀ f' now' c sess, c ≠ code →
     is_ok (post_auth_verify_otp f' now' "0811111111" c d' sess).1.1 = false).
Proof.
  apply (otp_issuance_stores_newest no_faults double_0_3 1000 "0811111111" db_family).
  - reflexivity.
  - vm_compute. discriminate.
  - vm_compute. reflexivity.
  - vm_compute. reflexivity.
Defined.

(** [Math.random()] = 0.3: the product rounds to 270000 and the code is
    370000, where exact arithmetic would give 369999. *)
Example otp_for_random_0_3 :
  (generateAndStoreOtp no_faults double_0_3 1000 "0811111111" db_family).1 = "370000" ∧
  Qfloor (100000 + double_0_3 * 900000) = 369999.
Proof. split; vm_compute; reflexivity. Qed.

End Otp.

(** ** Contacts *)

Section Contacts.

Implicit Types (f : faults) (d : db) (u v a b : Z).

Lemma ensureSettings_noop u d : is_Some (settings d !! u) → ensureSettings u d = d.
Proof. intros [r Hr]. unfold ensureSettings. by rewrite Hr. Qed.

Lemma ensureSettings_has u d : is_Some (settings (ensureSettings u d) !! u).
Proof.
  unfold ensureSettings. destruct (settings d !! u) as [r|] eqn:Hr.
  - rewrite Hr. eauto.
  - cbn. rewrite lookup_insert_eq. eauto.
Qed.

Lemma ensureSettings_keeps u v d :
  is_Some (settings d !! v) → is_Some (settings (ensureSettings u d) !! v).
Proof.
  intros Hv. unfold ensureSettings. destruct (settings d !! u) eqn:Hr; [done |].
  cbn. destruct (decide (u = v)) as [-> | Hne].
  - rewrite lookup_insert_eq. eauto.
  - by rewrite lookup_insert_ne.
Qed.

Lemma ensureSettings_tables u d :
  users (ensureSettings u d) = users d ∧
  contacts (ensureSettings u d) = contacts d ∧
  otps (ensureSettings u d) = otps d.
Proof. unfold ensureSettings. by destruct (settings d !! u). Qed.

Lemma insert_contact_noop a b d : (a, b) ∈ contacts d → insert_contact a b d = d.
Proof. intros Hin. unfold insert_contact. by rewrite decide_True. Qed.

Lemma insert_contact_in a b d : (a, b) ∈ contacts (insert_contact a b d).
Proof.
  unfold insert_contact. case_decide; [done |]. cbn. set_solver.
Qed.

Lemma insert_contact_keeps a b d (c : Z * Z) :
  c ∈ contacts d → c ∈ contacts (insert_contact a b d).
Proof.
  intros Hc. unfold insert_contact. case_decide; [done |]. cbn. set_solver.
Qed.

Lemma insert_contact_tables a b d :
  users (insert_contact a b d) = users d ∧
  settings (insert_contact a b d) = settings d ∧
  otps (insert_contact a b d) = otps d.
Proof. unfold insert_contact. by case_decide. Qed.

(** INSERT OR IGNORE keeps UNIQUE(user_id, contact_user_id). *)
Lemma insert_contact_NoDup a b d :
  NoDup (contacts d) → NoDup (contacts (insert_contact a b d)).
Proof.
  intros Hnd. unfold insert_contact. case_decide as Hin; [done |]. cbn.
  apply NoDup_app. split_and!; [done | | apply NoDup_singleton].
  intros c Hc Hc'. apply list_elem_of_singleton in Hc'. by subst c.
Qed.

Lemma user_by_phone_users d d' p :
  users d' = users d → user_by_phone d' p = user_by_phone d p.
Proof. intros H. unfold user_by_phone. by rewrite H. Qed.

(** The successful run of contacts/add. *)
Lemma contacts_add_ok f me phone d row :
  missing phone = false →
  f SelectUserByPhone = false →
  (∀ a b, f (InsertContact a b) = false) →
  user_by_phone d phone = Some row →
  row_id row ≠ user_id me →
  post_contacts_add f (Some me) phone d
  = (Ok [("ok", VBool true)],
     insert_contact (row_id row) (user_id me)
       (insert_contact (user_id me) (row_id row)
          (ensureSettings (row_id row) (ensureSettings (user_id me) d)))).
Proof.
  intros Hp Hf Hfi Hrow Hne. unfold post_contacts_add.
  rewrite Hp, Hf, Hrow, !Hfi.
  apply Z.eqb_neq in Hne. by rewrite Hne.
Qed.

(** C10: when the phone belongs to a user other than the caller, adding
    the contact answers ok and leaves both directed rows in [contacts];
    calling contacts/add again with the same phone answers ok again and
    leaves the contacts table, and the whole database, as the first call
    left it. *)
Theorem contacts_add_idempotent f1 f2 me phone d row :
  missing phone = false →
  user_by_phone d phone = Some row →
  row_id row ≠ user_id me →
  f1 SelectUserByPhone = false → (∀ a b, f1 (InsertContact a b) = false) →
  f2 SelectUserByPhone = false → (∀ a b, f2 (InsertContact a b) = false) →
  let first := post_contacts_add f1 (Some me) phone d in
  let second := post_contacts_add f2 (Some me) phone first.2 in
  first.1 = Ok [("ok", VBool true)] ∧
  (user_id me, row_id row) ∈ contacts first.2 ∧
  (row_id row, user_id me) ∈ contacts first.2 ∧
  second.1 = Ok [("ok", VBool true)] ∧
  contacts second.2 = contacts first.2 ∧
  second.2 = first.2.
Proof.
  intros Hp Hrow Hne Hf1 Hf1i Hf2 Hf2i. cbn zeta.
  rewrite (contacts_add_ok f1 me phone d row) by done. cbn [fst snd].
  set (d0 := ensureSettings (row_id row) (ensureSettings (user_id me) d)).
  set (d1 := insert_contact (user_id me) (row_id row) d0).
  set (d2 := insert_contact (row_id row) (user_id me) d1).
  assert (Hin1 : (user_id me, row_id row) ∈ contacts d2).
  { apply insert_contact_keeps, insert_contact_in. }
  assert (Hin2 : (row_id row, user_id me) ∈ contacts d2).
  { apply insert_contact_in. }
  assert (Hrow2 : user_by_phone d2 phone = Some row).
  { rewrite <- Hrow. apply user_by_phone_users. unfold d2, d1, d0.
    rewrite !(proj1 (insert_contact_tables _ _ _)).
    by rewrite !(proj1 (ensureSettings_tables _ _)). }
  assert (Hset : settings d2 = settings d0).
  { unfold d2, d1.
    by rewrite !(proj1 (proj2 (insert_contact_tables _ _ _))). }
  assert (Hs1 : is_Some (settings d2 !! user_id me)).
  { rewrite Hset. apply ensureSettings_keeps, ensureSettings_has. }
  assert (Hs2 : is_Some (settings d2 !! row_id row)).
  { rewrite Hset. apply ensureSettings_has. }
  assert (Hsecond : post_contacts_add f2 (Some me) phone d2
                    = (Ok [("ok", VBool true)], d2)).
  { rewrite (contacts_add_ok f2 me phone d2 row) by done.
    rewrite (ensureSettings_noop (user_id me) d2) by done.
    rewrite (ensureSettings_noop (row_id row) d2) by done.
    rewrite (insert_contact_noop (user_id me) (row_id row) d2) by done.
    by rewrite (insert_contact_noop (row_id row) (user_id me) d2). }
  rewrite Hsecond. by split_and!.
Qed.

Lemma contacts_add_idempotent_example :
  let first := post_contacts_add no_faults (Some (rowToUser somchai))
                 "0822222222" db_init_two in
  let second := post_contacts_add no_faults (Some (rowToUser somchai))
                  "0822222222" first.2 in
  first.1 = Ok [("ok", VBool true)] ∧
  (1, 2) ∈ contacts first.2 ∧
  (2, 1) ∈ contacts first.2 ∧
  second.1 = Ok [("ok", VBool true)] ∧
  contacts second.2 = contacts first.2 ∧
  second.2 = first.2.
Proof.
  apply (contacts_add_idempotent no_faults no_faults (rowToUser somchai)
           "0822222222" db_init_two malee).
  - reflexivity.
  - reflexivity.
  - cbn. lia.
  - reflexivity.
  - reflexivity.
  - reflexivity.
  - reflexivity.
Defined.

End Contacts.

(** ** Messages *)

Section Messages.

Implicit Types (f : faults) (d : db) (reg : gmap Z presence).

Lemma next_id_fresh (ids : list Z) i : i ∈ ids → i < next_id ids.
Proof.
  unfold next_id. induction ids as [|j ids IH]; intros Hi.
  - by apply elem_of_nil in Hi.
  - apply elem_of_cons in Hi as [-> | Hi]; cbn; [lia |].
    specialize (IH Hi). lia.
Qed.

Lemma relay_all_length reg (ps : list push) :
  (length (relay_all reg ps) ≤ length ps)%nat.
Proof.
  unfold relay_all. induction ps as [|p ps IH]; [done |].
  cbn. rewrite length_app.
  pose proof (emitToUser_length reg (to p) (event p) (payload p)).
  unfold relay at 1. lia.
Qed.

(** The rows the group branch appends: one per recipient, in order, each
    with the group flag and with a key above every earlier one. *)
Lemma group_rows (fromUserId : Z) (text : value) (rs : list Z) :
  ∀ ms, ∃ rows,
    foldl (insert_group_message fromUserId text) ms rs = ms ++ rows ∧
    length rows = length rs ∧
    to_user_id <$> rows = VInt <$> rs ∧
    Forall (λ m, is_group m = 1 ∧ from_user_id m = fromUserId ∧
                 content m = text) rows ∧
    Forall (λ m, ∀ i, i ∈ message_id <$> ms → i < message_id m) rows ∧
    NoDup (message_id <$> rows).
Proof.
  induction rs as [|r rs IH]; intros ms.
  - exists []. cbn. rewrite app_nil_r. split_and!; try done. constructor.
  - cbn [foldl]. destruct (IH (insert_group_message fromUserId text ms r))
      as (rows & Heq & Hlen & Hto & Hall & Hids & Hnd).
    unfold insert_group_message in Heq, Hids.
    set (row0 := {| message_id := next_id (message_id <$> ms);
                    from_user_id := fromUserId; to_user_id := VInt r;
                    is_group := 1; content := text |}) in *.
    exists (row0 :: rows). split_and!.
    + unfold insert_group_message. fold row0. rewrite Heq.
      by rewrite <- app_assoc.
    + cbn. by rewrite Hlen.
    + cbn. by rewrite Hto.
    + by constructor.
    + constructor.
      * intros i Hi. cbn. by apply next_id_fresh.
      * eapply Forall_impl; [exact Hids |]. intros m Hm i Hi.
        apply Hm. rewrite fmap_app. apply elem_of_app. by left.
    + cbn. constructor; [| done].
      intros Hin. apply list_elem_of_fmap in Hin as (m & Hm & Hin).
      rewrite Forall_forall in Hids. specialize (Hids m Hin (message_id row0)).
      assert (message_id row0 < message_id m); [| cbn in *; lia].
      apply Hids. rewrite fmap_app. apply elem_of_app. right. cbn. set_solver.
Qed.

Lemma contact_ids_length d (u : Z) :
  length (contact_ids d u) = length (filter (λ c : Z * Z, c.1 = u) (contacts d)).
Proof.
  unfold contact_ids. rewrite merge_sort_Permutation. apply length_fmap.
Qed.

Lemma contact_ids_elem d (u c : Z) : c ∈ contact_ids d u ↔ (u, c) ∈ contacts d.
Proof.
  unfold contact_ids. rewrite merge_sort_Permutation, list_elem_of_fmap. split.
  - intros ([a b] & -> & He). apply list_elem_of_filter in He as [Ha He].
    cbn in Ha. by subst a.
  - intros He. exists (u, c). split; [done |]. by apply list_elem_of_filter.
Qed.

(** The query returns a contact as often as the table pairs it with the
    user. *)
Lemma contact_ids_count d (u c : Z) :
  length (filter (λ x, x = c) (contact_ids d u))
  = length (filter (λ e, e = (u, c)) (contacts d)).
Proof.
  unfold contact_ids. rewrite merge_sort_Permutation.
  induction (contacts d) as [|[a b] l IH]; [done |].
  rewrite (filter_cons (λ c0 : Z * Z, c0.1 = u)).
  rewrite (filter_cons (λ e : Z * Z, e = (u, c))). cbn [fst].
  destruct (decide (a = u)) as [-> | Hne].
  - cbn [fmap list_fmap snd]. rewrite filter_cons.
    destruct (decide (b = c)) as [-> | Hbc].
    + rewrite decide_True by done. cbn [length]. by rewrite IH.
    + rewrite decide_False by congruence. exact IH.
  - rewrite decide_False by congruence. exact IH.
Qed.

Lemma pushes_to_count (mk : Z → push) (l : list Z) (c : Z) :
  (∀ x, to (mk x) = x) →
  pushes_to c (mk <$> l) = length (filter (λ x, x = c) l).
Proof.
  intros Hmk. unfold pushes_to. induction l as [|x l IH]; [done |].
  cbn [fmap list_fmap]. rewrite !filter_cons, Hmk.
  destruct (decide (x = c)); cbn [length]; by rewrite IH.
Qed.

(** C5: a group send by a sender with [N] contact rows answers ok and
    appends exactly [N] message rows, each with the group flag and a key
    of its own, one for each relay call and addressed to that call's
    recipient; it makes [N] relay calls, as many to each user as the
    contacts table pairs that user with the sender, which emit at most [N]
    events: the event for a contact is emitted, to that contact's socket,
    exactly when the contact has an entry in the registry. *)
Theorem group_message_fan_out f me toUserId text isGroup d reg :
  truthy text = true → truthy isGroup = true → f SelectContacts = false →
  let N := length (filter (λ c, c.1 = user_id me) (contacts d)) in
  let res := post_messages f (Some me) toUserId text isGroup d in
  res.1.1 = Ok [("ok", VBool true)] ∧
  (∃ rows,
     messages res.1.2 = messages d ++ rows ∧
     length rows = N ∧
     to_user_id <$> rows = (λ p, VInt (to p)) <$> res.2 ∧
     Forall (λ m, is_group m = 1 ∧ from_user_id m = user_id me) rows ∧
     (∀ s, text = VStr s → Forall (λ m, content m = VStr s) rows) ∧
     NoDup (message_id <$> rows)) ∧
  length res.2 = N ∧
  (∀ c, pushes_to c res.2
        = length (filter (λ e, e = (user_id me, c)) (contacts d))) ∧
  Forall (λ p, event p = "message:new" ∧
               payload p = group_payload (user_id me) (to p) text) res.2 ∧
  (length (relay_all reg res.2) ≤ N)%nat ∧
  (∀ c sid, (user_id me, c) ∈ contacts d →
     io_to_emit sid "message:new" (group_payload (user_id me) c text)
       ∈ relay_all reg res.2
     ↔ ∃ target, reg !! c = Some target ∧ socketId target = sid).
Proof.
  intros Htext Hgroup Hf. cbn zeta. unfold post_messages.
  rewrite Htext, Hgroup, Hf. cbn [negb fst snd].
  set (rs := contact_ids d (user_id me)).
  assert (HN : length rs = length (filter (λ c, c.1 = user_id me) (contacts d)))
    by apply contact_ids_length.
  set (mk := λ rid, {| to := rid; event := "message:new";
                       payload := group_payload (user_id me) rid text |}).
  split_and!.
  - done.
  - destruct (group_rows (user_id me) text rs (messages d))
      as (rows & Heq & Hlen & Hto & Hall & _ & Hnd).
    exists rows. cbn [messages set_messages]. split_and!.
    + done.
    + congruence.
    + rewrite Hto, <- list_fmap_compose. done.
    + eapply Forall_impl; [exact Hall |]. by intros m (? & ? & ?).
    + intros s ->. eapply Forall_impl; [exact Hall |]. by intros m (? & ? & ?).
    + done.
  - rewrite length_fmap. done.
  - intros c. rewrite (pushes_to_count mk) by done. apply contact_ids_count.
  - apply Forall_fmap, Forall_forall. by intros rid _.
  - etrans; [apply relay_all_length |]. rewrite length_fmap. lia.
  - intros c sid Hc. unfold relay_all. rewrite list_elem_of_bind. split.
    + intros (p & He & Hp). apply list_elem_of_fmap in Hp as (rid' & -> & _).
      unfold relay in He. apply emitToUser_present in He as (target & Ht & He).
      cbn in Ht, He. injection He as -> Hrid'. exists target. split; [| done].
      by subst rid'.
    + intros (target & Ht & <-). exists (mk c). split.
      * unfold relay. apply emitToUser_present. by exists target.
      * apply list_elem_of_fmap. exists c. split; [done |].
        by apply contact_ids_elem.
Qed.

Lemma group_message_example :
  let reg := onlineUsers (on_connection
               {| socket_id := "sock-M"; userId := 2; userRole := "family" |}
               server_init).1 in
  let N := length (filter (λ c : Z * Z, c.1 = 1) (contacts db_family)) in
  let res := post_messages no_faults (Some (rowToUser somchai)) VUndefined
               (VStr "hello") (VBool true) db_family in
  res.1.1 = Ok [("ok", VBool true)] ∧
  (∃ rows,
     messages res.1.2 = messages db_family ++ rows ∧
     length rows = N ∧
     to_user_id <$> rows = (λ p, VInt (to p)) <$> res.2 ∧
     Forall (λ m, is_group m = 1 ∧ from_user_id m = 1) rows ∧
     (∀ s, VStr "hello" = VStr s → Forall (λ m, content m = VStr s) rows) ∧
     NoDup (message_id <$> rows)) ∧
  length res.2 = N ∧
  (∀ c, pushes_to c res.2
        = length (filter (λ e, e = (1, c)) (contacts db_family))) ∧
  Forall (λ p, event p = "message:new" ∧
               payload p = group_payload 1 (to p) (VStr "hello")) res.2 ∧
  (length (relay_all reg res.2) ≤ N)%nat ∧
  (∀ c sid, (1, c) ∈ contacts db_family →
     io_to_emit sid "message:new" (group_payload 1 c (VStr "hello"))
       ∈ relay_all reg res.2
     ↔ ∃ target, reg !! c = Some target ∧ socketId target = sid).
Proof.
  apply (group_message_fan_out no_faults (rowToUser somchai) VUndefined
           (VStr "hello") (VBool true) db_family).
  - reflexivity.
  - reflexivity.
  - reflexivity.
Defined.

(** A sender whose contacts 3 and 2 were added in that order: the rows and
    the pushes go to 2 and then to 3, and only user 2, who is connected,
    is reached. *)
Example group_message_two_contacts :
  let d := {| users := [somchai; malee;
                        {| row_id := 3; first_name := "Anan"; last_name := "Jaidee";
                           row_phone := "0833333333"; row_role := "family" |}];
              contacts := [(1, 3); (3, 1); (1, 2); (2, 1)];
              messages := []; exercises := []; settings := ∅; otps := ∅ |} in
  let reg := onlineUsers (on_connection
               {| socket_id := "sock-M"; userId := 2; userRole := "family" |}
               server_init).1 in
  let res := post_messages no_faults (Some (rowToUser somchai)) VUndefined
               (VStr "hello") (VBool true) d in
  to_user_id <$> messages res.1.2 = [VInt 2; VInt 3] ∧
  to <$> res.2 = [2; 3] ∧
  relay_all reg res.2
  = [io_to_emit "sock-M" "message:new" (group_payload 1 2 (VStr "hello"))].
Proof. vm_compute. by split_and!. Qed.

End Messages.

(** ** Exercise logging and the family notification *)

Section Exercise.

Implicit Types (f : faults) (d : db) (u c : Z).

Lemma family_contact_ids_elem d u c :
  c ∈ family_contact_ids d u ↔ is_family_contact d u c.
Proof.
  unfold family_contact_ids, is_family_contact.
  rewrite merge_sort_Permutation, list_elem_of_bind. split.
  - intros ([a b] & Hc & He). cbn in Hc. case_decide as Ha; [| by apply elem_of_nil in Hc].
    subst a. apply list_elem_of_fmap in Hc as (r & -> & Hr).
    apply list_elem_of_filter in Hr as [[Hid Hrole] Hr]. subst b.
    split; [done |]. by exists r.
  - intros [He (r & Hr & Hid & Hrole)]. exists (u, c). split; [| done].
    cbn. rewrite decide_True by done. apply list_elem_of_fmap.
    exists r. split; [done |]. by apply list_elem_of_filter.
Qed.

Lemma NoDup_fmap_filter {A B} (g : A → B) (P : A → Prop)
    `{!∀ x, Decision (P x)} (l : list A) :
  NoDup (g <$> l) → NoDup (g <$> filter P l).
Proof.
  induction l as [|x l IH]; [done |]. cbn [fmap list_fmap].
  intros Hnd. apply NoDup_cons in Hnd as [Hx Hnd]. rewrite filter_cons.
  case_decide; [| by apply IH]. cbn. apply NoDup_cons. split; [| by apply IH].
  intros Hin. apply Hx. apply list_elem_of_fmap in Hin as (y & -> & Hy).
  apply list_elem_of_filter in Hy as [_ Hy]. apply list_elem_of_fmap. by exists y.
Qed.

(** Under the key constraints the join returns each family contact once. *)
Lemma family_contact_ids_NoDup d u : keys_unique d → NoDup (family_contact_ids d u).
Proof.
  intros [Hu Hc]. unfold family_contact_ids. rewrite merge_sort_Permutation.
  apply NoDup_bind; [| | done].
  - intros [a1 b1] [a2 b2] y _ _ H1 H2. cbn in H1, H2.
    destruct (decide (a1 = u)) as [-> |]; [| by apply elem_of_nil in H1].
    destruct (decide (a2 = u)) as [-> |]; [| by apply elem_of_nil in H2].
    apply list_elem_of_fmap in H1 as (r1 & -> & Hr1).
    apply list_elem_of_fmap in H2 as (r2 & Heq & Hr2).
    apply list_elem_of_filter in Hr1 as [[Hid1 _] _].
    apply list_elem_of_filter in Hr2 as [[Hid2 _] _].
    congruence.
  - intros [a b] _. cbn. case_decide; [| constructor].
    by apply NoDup_fmap_filter.
Qed.

Lemma pushes_to_absent (mk : Z → push) (l : list Z) c :
  (∀ x, to (mk x) = x) → c ∉ l → pushes_to c (mk <$> l) = 0%nat.
Proof.
  intros Hmk. unfold pushes_to. induction l as [|x l IH]; intros Hc; [done |].
  apply not_elem_of_cons in Hc as [Hne Hc]. cbn [fmap list_fmap].
  rewrite filter_cons, Hmk. rewrite decide_False by done. by apply IH.
Qed.

Lemma pushes_to_fmap (mk : Z → push) (l : list Z) c :
  (∀ x, to (mk x) = x) → NoDup l → c ∈ l → pushes_to c (mk <$> l) = 1%nat.
Proof.
  intros Hmk. induction l as [|x l IH]; intros Hnd Hc.
  - by apply elem_of_nil in Hc.
  - apply NoDup_cons in Hnd as [Hx Hnd]. unfold pushes_to.
    cbn [fmap list_fmap]. rewrite filter_cons, Hmk.
    apply elem_of_cons in Hc as [-> | Hc].
    + rewrite decide_True by done. cbn [length]. f_equal.
      by apply (pushes_to_absent mk l x).
    + rewrite decide_False; [by apply IH |]. intros ->. done.
Qed.

(** What the handler does once the body is accepted and the insert went
    through. *)
Lemma post_exercise_accepted f me today exerciseType dur fatigueLevel difficulty d :
  truthy exerciseType = true → f InsertExercise = false →
  let lastID := next_id (exercise_id <$> exercises d) in
  let row := {| exercise_id := lastID; exercise_user_id := user_id me;
                date := today; exercise_type := exerciseType;
                duration_min := Math_max (of_Z 0) (Math_floor dur);
                fatigue_level := Js.or fatigueLevel VNull;
                difficulty := Js.or difficulty VNull |} in
  let notifyEnabled :=
    negb (f SelectSettings) &&
    match settings d !! user_id me with
    | Some sRow => is_one (family_notify_parent_done sRow)
    | None => false
    end in
  post_exercise f (Some me) today exerciseType (VNum dur) fatigueLevel difficulty d
  = (Ok [("ok", VBool true); ("id", VInt lastID)],
     set_exercises (exercises d ++ [row]) d,
     if String.eqb (user_role me) "elderly" && notifyEnabled
     then notifyFamilyOfExercise f (user_id me)
            (exercise_payload exerciseType dur fatigueLevel) d
     else []).
Proof.
  intros Het Hf. cbn zeta. unfold post_exercise. rewrite Het, Hf. cbn.
  destruct (String.eqb (user_role me) "elderly"); [| done]. cbn.
  destruct (negb (f SelectSettings) && _); [| done].
  reflexivity.
Qed.

Lemma notify_pushes f elderlyId (body : object) d (p : push) :
  p ∈ notifyFamilyOfExercise f elderlyId body d →
  to p ∈ family_contact_ids d elderlyId ∧
  event p = "exercise:completed" ∧
  payload p = ("fromUserId", VInt elderlyId) :: body.
Proof.
  unfold notifyFamilyOfExercise. destruct (f SelectFamilyContacts).
  - intros H. by apply elem_of_nil in H.
  - intros H. apply list_elem_of_fmap in H as (rid & -> & Hrid). by cbn.
Qed.


Lemma db_family_keys_unique : keys_unique db_family.
Proof.
  split; cbn.
  - apply NoDup_cons. split; [| apply NoDup_singleton].
    intros H. apply list_elem_of_singleton in H. discriminate.
  - apply NoDup_cons. split; [| apply NoDup_singleton].
    intros H. apply list_elem_of_singleton in H. discriminate.
Qed.


(** One family contact, flag 1: exactly one push, to that contact. *)
Example exercise_one_family_contact :
  (post_exercise no_faults (Some (rowToUser somchai)) "2024-05-01"
     (VStr "walking") (VNum (of_Z 20)) (VInt 3) VUndefined db_family).2
  = [{| to := 2; event := "exercise:completed";
        payload := [("fromUserId", VInt 1); ("exerciseType", VStr "walking");
                    ("duration", VInt 20); ("fatigueLevel", VInt 3)] |}].
Proof. reflexivity. Qed.

(** C8: when the settings read fails, by a database error or because the
    user has no settings row, the handler makes no relay call and still
    answers ok with the key of the exercise row it has inserted. *)
Theorem settings_read_failure_means_no_push
    f me today exerciseType dur fatigueLevel difficulty d :
  truthy exerciseType = true →
  f InsertExercise = false →
  f SelectSettings = true ∨ settings d !! user_id me = None →
  let res := post_exercise f (Some me) today exerciseType (VNum dur)
               fatigueLevel difficulty d in
  ∃ row,
    res.1.1 = Ok [("ok", VBool true); ("id", VInt (exercise_id row))] ∧
    exercises res.1.2 = exercises d ++ [row] ∧
    exercise_user_id row = user_id me ∧
    res.2 = [].
Proof.
  intros Het Hf Hfail. cbn zeta. rewrite post_exercise_accepted by done.
  exists {| exercise_id := next_id (exercise_id <$> exercises d);
            exercise_user_id := user_id me; date := today;
            exercise_type := exerciseType;
            duration_min := Math_max (of_Z 0) (Math_floor dur);
            fatigue_level := Js.or fatigueLevel VNull;
            difficulty := Js.or difficulty VNull |}.
  cbn [fst snd exercises set_exercises]. split_and!; [done | done | done |].
  destruct Hfail as [-> | ->]; cbn [negb andb]; [by rewrite andb_false_r |].
  by rewrite !andb_false_r.
Qed.

Lemma settings_read_failure_example :
  let res := post_exercise (λ s, match s with SelectSettings => true | _ => false end)
               (Some (rowToUser somchai)) "2024-05-01" (VStr "walking")
               (VNum (of_Z 20)) (VInt 3) VUndefined db_family in
  ∃ row,
    res.1.1 = Ok [("ok", VBool true); ("id", VInt (exercise_id row))] ∧
    exercises res.1.2 = exercises db_family ++ [row] ∧
    exercise_user_id row = 1 ∧
    res.2 = [].
Proof.
  apply (settings_read_failure_means_no_push
           (λ s, match s with SelectSettings => true | _ => false end)
           (rowToUser somchai) "2024-05-01" (VStr "walking") (of_Z 20) (VInt 3)
           VUndefined db_family).
  - reflexivity.
  - reflexivity.
  - left. reflexivity.
Defined.

Lemma Math_max_0_of_Z z : Math_max (of_Z 0) (of_Z z) = of_Z (Z.max 0 z).
Proof.
  unfold Math_max, of_Z. destruct (Qle_bool (inject_Z 0) (inject_Z z)) eqn:Hle.
  - apply Qle_bool_iff in Hle. rewrite <- Zle_Qle in Hle.
    by rewrite Z.max_r.
  - assert (Hlt : ¬ 0 ≤ z).
    { intros H. rewrite Zle_Qle in H. apply Qle_bool_iff in H. congruence. }
    rewrite Z.max_l by lia. done.
Qed.

Lemma Qfloor_negative (q : Q) : (q < 0)%Q → Qfloor q < 0.
Proof.
  intros Hq. rewrite Zlt_Qlt. eapply Qle_lt_trans; [apply Qfloor_le |]. exact Hq.
Qed.

(** For a finite duration the stored [duration_min] is
    [max(0, floor(duration))], a non-negative integer, and every
    [exercise:completed] payload carries [floor(duration)] unclamped; for
    a negative duration the pushed duration is negative while the stored
    one is 0; a fatigue level of 0 becomes null in the stored row and in
    the payload. *)
Theorem exercise_duration_stored_and_pushed
    f me today exerciseType (q : Q) fatigueLevel difficulty d :
  truthy exerciseType = true →
  f InsertExercise = false →
  let res := post_exercise f (Some me) today exerciseType (VNum (Finite q))
               fatigueLevel difficulty d in
  ∃ row,
    exercises res.1.2 = exercises d ++ [row] ∧
    duration_min row = of_Z (Z.max 0 (Qfloor q)) ∧
    nonneg_integer (duration_min row) ∧
    (∀ p, p ∈ res.2 →
       payload p = [("fromUserId", VInt (user_id me));
                    ("exerciseType", exerciseType);
                    ("duration", VInt (Qfloor q));
                    ("fatigueLevel", Js.or fatigueLevel VNull)]) ∧
    ((q < 0)%Q →
       Qfloor q < 0 ∧ duration_min row = of_Z 0 ∧
       of_Z (Qfloor q) ≠ duration_min row) ∧
    (fatigueLevel = VInt 0 →
       fatigue_level row = VNull ∧
       ∀ p, p ∈ res.2 → ("fatigueLevel", VNull) ∈ payload p).
Proof.
  intros Het Hf. cbn zeta. rewrite post_exercise_accepted by done.
  exists {| exercise_id := next_id (exercise_id <$> exercises d);
            exercise_user_id := user_id me; date := today;
            exercise_type := exerciseType;
            duration_min := Math_max (of_Z 0) (Math_floor (Finite q));
            fatigue_level := Js.or fatigueLevel VNull;
            difficulty := Js.or difficulty VNull |}.
  cbn [fst snd exercises set_exercises duration_min fatigue_level Math_floor].
  rewrite Math_max_0_of_Z.
  assert (Hpay : ∀ p,
    p ∈ (if String.eqb (user_role me) "elderly" &&
            (negb (f SelectSettings) &&
             match settings d !! user_id me with
             | Some sRow => is_one (family_notify_parent_done sRow)
             | None => false
             end)
         then notifyFamilyOfExercise f (user_id me)
                (exercise_payload exerciseType (Finite q) fatigueLevel) d
         else []) →
    payload p = [("fromUserId", VInt (user_id me));
                 ("exerciseType", exerciseType);
                 ("duration", VInt (Qfloor q));
                 ("fatigueLevel", Js.or fatigueLevel VNull)]).
  { intros p Hp. destruct (_ && _); [| by apply elem_of_nil in Hp].
    by apply notify_pushes in Hp as (_ & _ & ->). }
  split_and!.
  - done.
  - done.
  - exists (Z.max 0 (Qfloor q)). split; [lia | done].
  - exact Hpay.
  - intros Hq. apply Qfloor_negative in Hq.
    rewrite Z.max_l by lia. split_and!; [done | done |].
    unfold of_Z, inject_Z. intros [= Heq]. lia.
  - intros ->. split; [done |]. intros p Hp. rewrite (Hpay p Hp).
    change (Js.or (VInt 0) VNull) with VNull. set_solver.
Qed.

Lemma exercise_duration_example :
  let res := post_exercise no_faults (Some (rowToUser somchai)) "2024-05-01"
               (VStr "walking") (VNum (Finite (-3 # 2))) (VInt 0) VUndefined
               db_family in
  ∃ row,
    exercises res.1.2 = exercises db_family ++ [row] ∧
    duration_min row = of_Z (Z.max 0 (Qfloor (-3 # 2))) ∧
    nonneg_integer (duration_min row) ∧
    (∀ p, p ∈ res.2 →
       payload p = [("fromUserId", VInt 1);
                    ("exerciseType", VStr "walking");
                    ("duration", VInt (Qfloor (-3 # 2)));
                    ("fatigueLevel", Js.or (VInt 0) VNull)]) ∧
    ((-3 # 2 < 0)%Q →
       Qfloor (-3 # 2) < 0 ∧ duration_min row = of_Z 0 ∧
       of_Z (Qfloor (-3 # 2)) ≠ duration_min row) ∧
    (VInt 0 = VInt 0 →
       fatigue_level row = VNull ∧
       ∀ p, p ∈ res.2 → ("fatigueLevel", VNull) ∈ payload p).
Proof.
  apply (exercise_duration_stored_and_pushed no_faults (rowToUser somchai)
           "2024-05-01" (VStr "walking") (-3 # 2) (VInt 0) VUndefined db_family).
  - reflexivity.
  - reflexivity.
Defined.

(** A duration of -1.5 minutes: 0 is stored, -2 is pushed. *)
Example negative_duration_pushed_unclamped :
  let res := post_exercise no_faults (Some (rowToUser somchai)) "2024-05-01"
               (VStr "walking") (VNum (Finite (-3 # 2))) (VInt 0) VUndefined
               db_family in
  duration_min <$> exercises res.1.2 = [of_Z 0] ∧
  fatigue_level <$> exercises res.1.2 = [VNull] ∧
  res.2 = [{| to := 2; event := "exercise:completed";
              payload := [("fromUserId", VInt 1); ("exerciseType", VStr "walking");
                          ("duration", VInt (-2)); ("fatigueLevel", VNull)] |}].
Proof. by split_and!. Qed.

(** For the duration [-Infinity] (the JSON numeral -1e999) the row stores
    0 and the payload carries [-Infinity]. *)
Lemma negative_infinite_duration f me today exerciseType fatigueLevel hardness d :
  truthy exerciseType = true → f InsertExercise = false →
  let res := post_exercise f (Some me) today exerciseType (VNum NegInfinity)
               fatigueLevel hardness d in
  ∃ row,
    exercises res.1.2 = exercises d ++ [row] ∧
    duration_min row = of_Z 0 ∧
    ∀ p, p ∈ res.2 → ("duration", VNum NegInfinity) ∈ payload p.
Proof.
  intros Het Hf. cbn zeta. rewrite post_exercise_accepted by done.
  eexists. cbn [fst snd exercises set_exercises]. split; [reflexivity |].
  split; [reflexivity |]. intros p Hp.
  destruct (_ && _); [| by apply elem_of_nil in Hp].
  apply notify_pushes in Hp as (_ & _ & ->). cbn. set_solver.
Qed.

(** C9: the claim fails for the duration [Infinity] (the JSON numeral
    1e999).  The request is accepted and the row stores
    [max(0, floor(Infinity))], which is [Infinity] and not an integer,
    in the column duration_min INTEGER NOT NULL. *)
Lemma infinite_duration_not_an_integer :
  let res := post_exercise no_faults (Some (rowToUser somchai)) "2024-05-01"
               (VStr "walking") (VNum Infinity) VUndefined VUndefined
               db_family in
  is_ok res.1.1 = true ∧
  ∃ row, exercises res.1.2 = [row] ∧
         duration_min row = Math_max (of_Z 0) (Math_floor Infinity) ∧
         ¬ nonneg_integer (duration_min row).
Proof.
  cbn zeta. split; [reflexivity |]. eexists. split; [reflexivity |].
  split; [reflexivity |]. intros (z & _ & Hz). discriminate Hz.
Qed.

End Exercise.

(** ** The constraints assumed above are kept by the handlers *)

Section Invariants.

Implicit Types (f : faults) (d : db).

Lemma db_init_keys_unique : keys_unique db_init.
Proof. split; constructor. Qed.

Lemma db_init_otps_wf : otps_wf db_init.
Proof. intros p row H. cbn in H. by rewrite lookup_empty in H. Qed.

Lemma digits_go_nonempty fuel n acc : acc ≠ "" → digits_go fuel n acc ≠ "".
Proof.
  revert n acc. induction fuel as [|fuel IH]; intros n acc Hacc; [done |].
  cbn. destruct (n / 10 =? 0); [done |]. by apply IH.
Qed.

Lemma int_to_string_nonempty n : int_to_string n ≠ "".
Proof.
  unfold int_to_string. destruct (n <? 0); cbn.
  - discriminate.
  - destruct (_ =? 0); [done |]. by apply digits_go_nonempty.
Qed.

Lemma find_app_is_Some {A} (P : A → bool) (l l' : list A) :
  is_Some (List.find P l) → is_Some (List.find P (l ++ l')).
Proof.
  induction l as [|x l IH]; cbn; [by intros [? ?] |].
  destruct (P x); [done | exact IH].
Qed.

Lemma find_app_last {A} (P : A → bool) (l : list A) x :
  P x = true → is_Some (List.find P (l ++ [x])).
Proof.
  intros Hx. induction l as [|y l IH]; cbn.
  - rewrite Hx. eauto.
  - destruct (P y); [eauto | exact IH].
Qed.

Lemma find_fmap_is_Some {A} (P : A → bool) (g : A → A) (l : list A) :
  (∀ x, P (g x) = P x) → is_Some (List.find P l) → is_Some (List.find P (g <$> l)).
Proof.
  intros Hg. induction l as [|x l IH]; cbn; [done |].
  rewrite Hg. destruct (P x); [eauto | exact IH].
Qed.

(** Storing a code keeps [otps_wf] when the phone is non-empty and has a
    [users] row. *)
Lemma generateAndStoreOtp_otps_wf f random now phone d :
  phone ≠ "" → is_Some (user_by_phone d phone) → otps_wf d →
  otps_wf (generateAndStoreOtp f random now phone d).2.
Proof.
  intros Hp Hu Hwf. unfold generateAndStoreOtp. cbn [snd].
  destruct (f ReplaceOtp); [done |].
  intros p row. cbn [otps set_otps]. destruct (decide (phone = p)) as [<- | Hne].
  - rewrite lookup_insert_eq. intros [= <-]. cbn [row_code].
    split_and!; [done | apply int_to_string_nonempty | done].
  - rewrite lookup_insert_ne by done. intros Hrow.
    destruct (Hwf p row Hrow) as (? & ? & ?). done.
Qed.

Lemma ensureSettings_otps_wf u d : otps_wf d → otps_wf (ensureSettings u d).
Proof.
  intros Hwf p row. destruct (ensureSettings_tables u d) as (Hus & _ & Hot).
  rewrite Hot. intros Hrow. destruct (Hwf p row Hrow) as (? & ? & ?).
  split_and!; [done | done |]. by rewrite (user_by_phone_users d).
Qed.

(** X24: request-otp keeps the keys of [users] distinct and keeps every stored
    code non-empty and attached to a phone that has a [users] row, for
    every outcome of its statements. *)
Theorem request_otp_keeps_constraints
    f node_env random now firstName lastName phone role d :
  keys_unique d → otps_wf d →
  let d' := (post_auth_request_otp f node_env random now firstName lastName
               phone role d).2 in
  keys_unique d' ∧ otps_wf d'.
Proof.
  intros [Hids Hcs] Hwf. cbn zeta. unfold post_auth_request_otp.
  destruct (missing firstName || missing lastName || missing phone) eqn:Hmiss;
    [done |].
  apply orb_false_iff in Hmiss as [_ Hp]. apply missing_false in Hp.
  destruct (f SelectUserByPhone); [done |].
  destruct (user_by_phone d phone) as [row|] eqn:Hrow.
  - destruct (f UpdateUser); [done |].
    match goal with |- context [set_users ?us d] => set (d1 := set_users us d) end.
    assert (Hwf1 : otps_wf d1).
    { intros p r Hr. destruct (Hwf p r Hr) as (? & ? & Hsome).
      split_and!; [done | done |]. unfold user_by_phone, d1. cbn [users set_users].
      apply find_fmap_is_Some; [| done]. intros x. by destruct (row_id x =? row_id row). }
    assert (Hu1 : is_Some (user_by_phone d1 phone)).
    { unfold user_by_phone, d1. cbn [users set_users].
      apply find_fmap_is_Some.
      - intros x. by destruct (row_id x =? row_id row).
      - unfold user_by_phone in Hrow. rewrite Hrow. eauto. }
    destruct (generateAndStoreOtp f random now phone (ensureSettings (row_id row) d1))
      as [code d3] eqn:Hgen. cbn [snd].
    assert (Hd3 : d3 = (generateAndStoreOtp f random now phone
                          (ensureSettings (row_id row) d1)).2) by by rewrite Hgen.
    split.
    + rewrite Hd3. unfold generateAndStoreOtp. cbn [snd].
      assert (keys_unique (ensureSettings (row_id row) d1)) as Hk.
      { destruct (ensureSettings_tables (row_id row) d1) as (Hus & Hcs' & _).
        unfold keys_unique. rewrite Hus, Hcs'. unfold d1. cbn [users set_users contacts].
        split; [| done]. rewrite <- list_fmap_compose.
        erewrite list_fmap_ext; [exact Hids |]. intros i x _. cbn.
        by destruct (row_id x =? row_id row). }
      by destruct (f ReplaceOtp).
    + rewrite Hd3. apply generateAndStoreOtp_otps_wf; [done | |].
      * by rewrite (user_by_phone_users d1) by apply ensureSettings_tables.
      * by apply ensureSettings_otps_wf.
  - destruct (f InsertUser); [done |].
    match goal with |- context [set_users ?us d] => set (d1 := set_users us d) end.
    set (lastID := next_id (row_id <$> users d)) in *.
    assert (Hwf1 : otps_wf d1).
    { intros p r Hr. destruct (Hwf p r Hr) as (? & ? & Hsome).
      split_and!; [done | done |]. unfold user_by_phone, d1. cbn [users set_users].
      by apply find_app_is_Some. }
    assert (Hu1 : is_Some (user_by_phone d1 phone)).
    { unfold user_by_phone, d1. cbn [users set_users].
      apply find_app_last. cbn. apply String.eqb_refl. }
    destruct (generateAndStoreOtp f random now phone (ensureSettings lastID d1))
      as [code d3] eqn:Hgen. cbn [snd].
    assert (Hd3 : d3 = (generateAndStoreOtp f random now phone
                          (ensureSettings lastID d1)).2) by by rewrite Hgen.
    split.
    + rewrite Hd3. unfold generateAndStoreOtp. cbn [snd].
      assert (keys_unique (ensureSettings lastID d1)) as Hk.
      { destruct (ensureSettings_tables lastID d1) as (Hus & Hcs' & _).
        unfold keys_unique. rewrite Hus, Hcs'. unfold d1. cbn [users set_users contacts].
        split; [| done]. rewrite fmap_app. apply NoDup_app. split_and!.
        - done.
        - intros i Hi Hi'. cbn in Hi'. apply list_elem_of_singleton in Hi'.
          apply next_id_fresh in Hi. unfold lastID in Hi'. lia.
        - apply NoDup_singleton. }
      by destruct (f ReplaceOtp).
    + rewrite Hd3. apply generateAndStoreOtp_otps_wf; [done | |].
      * by rewrite (user_by_phone_users d1) by apply ensureSettings_tables.
      * by apply ensureSettings_otps_wf.
Qed.

Theorem verify_otp_keeps_constraints f now phone code d sess :
  keys_unique d → otps_wf d →
  let d' := (post_auth_verify_otp f now phone code d sess).1.2 in
  keys_unique d' ∧ otps_wf d'.
Proof.
  intros Hk Hwf. cbn zeta.
  destruct (is_ok (post_auth_verify_otp f now phone code d sess).1.1) eqn:Hok.
  - unfold post_auth_verify_otp in *.
    destruct (missing phone || missing code); [done |].
    destruct (f SelectOtp); [done |].
    destruct (otps d !! phone) as [row|]; [| done].
    destruct (negb _); [done |].
    destruct (expires_at row <? now); [done |].
    destruct (f SelectUserByPhone); [done |].
    destruct (user_by_phone d phone); [| done].
    cbn. split; [done |]. intros p r. cbn.
    destruct (decide (phone = p)) as [<- | Hne].
    + by rewrite lookup_delete_eq.
    + rewrite lookup_delete_ne by done. apply Hwf.
  - by rewrite (proj1 (verify_failure_changes_nothing f now phone code d sess Hok)).
Qed.

(** X25: contacts/add keeps UNIQUE(user_id, contact_user_id): INSERT OR IGNORE
    never duplicates a contact row, for every outcome of its statements,
    and [users] and [otps] stay well-formed. *)
Theorem contacts_add_keeps_constraints f sess phone d :
  keys_unique d → otps_wf d →
  let d' := (post_contacts_add f sess phone d).2 in
  keys_unique d' ∧ otps_wf d'.
Proof.
  intros Hk Hwf. cbn zeta.
  assert (Hins : ∀ a b d0, keys_unique d0 ∧ otps_wf d0 →
            keys_unique (insert_contact a b d0) ∧ otps_wf (insert_contact a b d0)).
  { intros a b d0 [[Hi Hc] Hw].
    destruct (insert_contact_tables a b d0) as (Hus & _ & Hot). split.
    - split; [by rewrite Hus | by apply insert_contact_NoDup].
    - intros p r. rewrite Hot. intros Hr. destruct (Hw p r Hr) as (? & ? & ?).
      split_and!; [done | done |]. by rewrite (user_by_phone_users d0). }
  assert (Hens : ∀ u d0, keys_unique d0 ∧ otps_wf d0 →
            keys_unique (ensureSettings u d0) ∧ otps_wf (ensureSettings u d0)).
  { intros u d0 [[Hi Hc] Hw].
    destruct (ensureSettings_tables u d0) as (Hus & Hcs & _). split.
    - unfold keys_unique. by rewrite Hus, Hcs.
    - by apply ensureSettings_otps_wf. }
  unfold post_contacts_add. destruct sess as [me|]; [| done].
  destruct (missing phone); [done |].
  destruct (f SelectUserByPhone); [done |].
  destruct (user_by_phone d phone) as [row|]; [| done].
  destruct (row_id row =? user_id me); [done |].
  destruct (f (InsertContact (user_id me) (row_id row))); cbn [snd].
  { by apply Hens, Hens. }
  destruct (f (InsertContact (row_id row) (user_id me))); cbn [snd].
  { by apply Hins, Hens, Hens. }
  by apply Hins, Hins, Hens, Hens.
Qed.

Theorem messages_keeps_constraints f sess toUserId text isGroup d :
  keys_unique d → otps_wf d →
  let d' := (post_messages f sess toUserId text isGroup d).1.2 in
  keys_unique d' ∧ otps_wf d'.
Proof.
  intros Hk Hwf. cbn zeta. unfold post_messages. destruct sess as [me|]; [| done].
  destruct (negb (truthy text)); [done |].
  destruct (truthy isGroup).
  - by destruct (f SelectContacts).
  - destruct (negb (truthy toUserId)); [done |]. by destruct (f InsertMessage).
Qed.

Theorem exercise_keeps_constraints
    f sess today exerciseType duration fatigueLevel difficulty d :
  keys_unique d → otps_wf d →
  let d' := (post_exercise f sess today exerciseType duration fatigueLevel
               difficulty d).1.2 in
  keys_unique d' ∧ otps_wf d'.
Proof.
  intros Hk Hwf. cbn zeta. unfold post_exercise. destruct sess as [me|]; [| done].
  destruct (truthy exerciseType); [| done].
  destruct (is_number duration); [| done].
  by destruct (f InsertExercise).
Qed.

End Invariants.

(** ** More on the presence registry *)

Section PresenceRuns.

Implicit Types (srv : server) (s : socket) (u : Z) (live : list socket).

Lemma step_isOnline srv i u :
  isOnline (step srv i).1 u
  = match i with
    | Connect s => if decide (userId s = u) then true else isOnline srv u
    | Disconnect s => if decide (userId s = u) then false else isOnline srv u
    | Emit _ _ _ => isOnline srv u
    end.
Proof.
  destruct i as [s | s | u' ev p]; cbn [step].
  - case_decide as Hu.
    + subst u. apply connect_is_online.
    + unfold isOnline. cbn. by rewrite lookup_insert_ne.
  - case_decide as Hu.
    + subst u. apply disconnect_is_offline.
    + unfold isOnline. cbn. by rewrite lookup_delete_ne.
  - done.
Qed.

Lemma run_cons srv i ins : (run srv (i :: ins)).1 = (run (step srv i).1 ins).1.
Proof.
  cbn [run]. destruct (step srv i) as [srv1 out1]. cbn [fst].
  by destruct (run srv1 ins).
Qed.

(** X1: Whether a user is registered after any sequence of connects,
    disconnects and pushes depends only on the last connect or disconnect
    that carries the user's id, whichever socket it came from: a connect
    registers, a disconnect unregisters, pushes and other users' events
    change nothing. *)
Theorem registry_follows_last_event srv ins u :
  isOnline (run srv ins).1 u = online_after u (isOnline srv u) ins.
Proof.
  revert srv. induction ins as [|i ins IH]; intros srv; [done |].
  rewrite run_cons, IH, step_isOnline. unfold online_after. cbn [foldl].
  by destruct i.
Qed.

Lemma NoDup_fmap_elem_inj {A B} (g : A → B) (l : list A) x y :
  NoDup (g <$> l) → x ∈ l → y ∈ l → g x = g y → x = y.
Proof.
  induction l as [|z l IH]; intros Hnd Hx Hy Heq; [by apply elem_of_nil in Hx |].
  cbn in Hnd. apply NoDup_cons in Hnd as [Hz Hnd].
  apply elem_of_cons in Hx as [-> | Hx]; apply elem_of_cons in Hy as [-> | Hy].
  - done.
  - exfalso. apply Hz. rewrite Heq. apply list_elem_of_fmap. by exists y.
  - exfalso. apply Hz. rewrite <- Heq. apply list_elem_of_fmap. by exists x.
  - by apply IH.
Qed.

(** In a reachable state the open sockets have distinct ids, [connected]
    holds exactly their ids, and every registry entry is the handle of an
    open socket of that user. *)
Lemma reachable_registry live srv :
  reachable live srv →
  NoDup (socket_id <$> live) ∧
  (∀ sid, sid ∈ connected srv ↔ sid ∈ socket_id <$> live) ∧
  (∀ u t, onlineUsers srv !! u = Some t →
     ∃ s, s ∈ live ∧ socket_id s = socketId t ∧ userId s = u ∧ userRole s = role t).
Proof.
  induction 1 as [| live srv s _ (Hnd & Hconn & Hreg) Hfresh
                  | live srv s _ (Hnd & Hconn & Hreg) Hs].
  - split_and!; [constructor | | ].
    + intros sid. cbn. set_solver.
    + intros u t Ht. cbn in Ht. by rewrite lookup_empty in Ht.
  - split_and!.
    + cbn. by apply NoDup_cons.
    + intros sid. cbn. rewrite elem_of_union, elem_of_singleton, elem_of_cons.
      by rewrite Hconn.
    + intros u t. cbn. destruct (decide (userId s = u)) as [<- | Hne].
      * rewrite lookup_insert_eq. intros [= <-]. exists s. split; [left |]; done.
      * rewrite lookup_insert_ne by done. intros Ht.
        destruct (Hreg u t Ht) as (s' & Hs' & ?). exists s'. split; [by right | done].
  - split_and!.
    + by apply NoDup_fmap_filter.
    + intros sid. cbn. rewrite elem_of_difference, elem_of_singleton, Hconn.
      rewrite !list_elem_of_fmap. split.
      * intros [(s' & -> & Hs') Hne]. exists s'. split; [done |].
        by apply list_elem_of_filter.
      * intros (s' & -> & Hs'). apply list_elem_of_filter in Hs' as [Hne Hs'].
        split; [by exists s' | done].
    + intros u t. cbn. destruct (decide (userId s = u)) as [<- | Hne].
      * by rewrite lookup_delete_eq.
      * rewrite lookup_delete_ne by done. intros Ht.
        destruct (Hreg u t Ht) as (s' & Hs' & Hid & Hu & Hr). exists s'.
        split; [| done]. apply list_elem_of_filter. split; [| done].
        intros Heq. apply Hne. rewrite <- Hu. f_equal. symmetry.
        by apply (NoDup_fmap_elem_inj socket_id live).
Qed.

(** X2: In every reachable state a push for a user is handed only to a socket
    that is open and belongs to that user, and it reaches exactly that
    socket: the relay never emits into the room of a closed socket or of
    another user. *)
Theorem push_reaches_open_socket_of_user live srv u ev p e :
  reachable live srv →
  e ∈ emitToUser (onlineUsers srv) u ev p →
  ∃ s, s ∈ live ∧ userId s = u ∧
       e = io_to_emit (socket_id s) ev p ∧
       receivers (connected srv) e = {[socket_id s]}.
Proof.
  intros Hreach He. destruct (reachable_registry live srv Hreach) as (_ & Hconn & Hreg).
  apply emitToUser_present in He as (t & Ht & ->).
  destruct (Hreg u t Ht) as (s & Hs & Hid & Hu & _). exists s.
  rewrite <- Hid. split_and!; [done | done | done |].
  cbn. rewrite decide_True; [done |]. apply Hconn, list_elem_of_fmap. by exists s.
Qed.

Lemma push_reaches_open_socket_example :
  ∃ s, s ∈ [phone_socket] ∧ userId s = 1 ∧
       io_to_emit "sock-A" "message:new" [] = io_to_emit (socket_id s) "message:new" [] ∧
       receivers (connected (on_connection phone_socket server_init).1)
         (io_to_emit "sock-A" "message:new" []) = {[socket_id s]}.
Proof.
  apply (push_reaches_open_socket_of_user [phone_socket]
           (on_connection phone_socket server_init).1 1 "message:new" []).
  - apply reachable_connect; [apply reachable_init |]. cbn. apply not_elem_of_nil.
  - vm_compute. left.
Defined.

End PresenceRuns.

(** ** Registration and login *)

Section Login.

Implicit Types (f : faults) (d : db) (sess : option user).

Lemma find_app_None {A} (P : A → bool) (l : list A) x :
  List.find P l = None → List.find P (l ++ [x]) = if P x then Some x else None.
Proof.
  induction l as [|y l IH]; cbn; [done |]. destruct (P y); [done | exact IH].
Qed.

Lemma find_fmap_same {A} (P : A → bool) (g : A → A) (l : list A) :
  (∀ x, P (g x) = P x) → List.find P (g <$> l) = g <$> List.find P l.
Proof.
  intros Hg. induction l as [|x l IH]; cbn; [done |].
  rewrite Hg. destruct (P x); [done | exact IH].
Qed.

(** request-otp once the body is complete and the first read went through. *)
Lemma request_otp_accepted f node_env random now firstName lastName phone role d :
  missing firstName = false → missing lastName = false → missing phone = false →
  f SelectUserByPhone = false →
  post_auth_request_otp f node_env random now firstName lastName phone role d
  = match user_by_phone d phone with
    | None =>
        if f InsertUser then (Err 500 "db_insert_error", d)
        else
          let g := generateAndStoreOtp f random now phone
                     (ensureSettings (next_id (row_id <$> users d))
                        (set_users (users d ++
                           [inserted_row firstName lastName phone role d]) d)) in
          (otp_reply node_env g.1, g.2)
    | Some row =>
        if f UpdateUser then (Err 500 "db_update_error", d)
        else
          let g := generateAndStoreOtp f random now phone
                     (ensureSettings (row_id row)
                        (set_users (updated_row firstName lastName role (row_id row)
                                      <$> users d) d)) in
          (otp_reply node_env g.1, g.2)
    end.
Proof.
  intros H1 H2 H3 Hf. unfold post_auth_request_otp. rewrite H1, H2, H3, Hf.
  cbn [orb]. destruct (user_by_phone d phone) as [row|].
  - by destruct (f UpdateUser).
  - by destruct (f InsertUser).
Qed.

Lemma generateAndStoreOtp_tables f random now phone d :
  users (generateAndStoreOtp f random now phone d).2 = users d ∧
  contacts (generateAndStoreOtp f random now phone d).2 = contacts d ∧
  settings (generateAndStoreOtp f random now phone d).2 = settings d.
Proof. unfold generateAndStoreOtp. cbn [snd]. by destruct (f ReplaceOtp). Qed.

Lemma role_value_valid role : role_value role = "elderly" ∨ role_value role = "family".
Proof.
  unfold role_value. destruct (String.eqb role "elderly"); [by left |].
  destruct (String.eqb role "family"); [by right | by left].
Qed.

(** X3: When request-otp answers with an error, nothing was written. *)
Theorem request_otp_error_changes_nothing
    f node_env random now firstName lastName phone role d :
  let res := post_auth_request_otp f node_env random now firstName lastName
               phone role d in
  is_ok res.1 = false → res.2 = d.
Proof.
  cbn zeta. unfold post_auth_request_otp.
  destruct (missing firstName || missing lastName || missing phone); [done |].
  destruct (f SelectUserByPhone); [done |].
  destruct (user_by_phone d phone) as [row|].
  - destruct (f UpdateUser); [done |]. by destruct (generateAndStoreOtp _ _ _ _ _).
  - destruct (f InsertUser); [done |]. by destruct (generateAndStoreOtp _ _ _ _ _).
Qed.

(** X4: request-otp for a phone no user has: the answer is ok, exactly one
    [users] row is appended, with a key no row had, the submitted names
    and phone, and the role 'family' if that was asked and 'elderly'
    otherwise; that user gets a settings row and no contact row changes. *)
Theorem request_otp_new_phone
    f node_env random now firstName lastName phone role d :
  missing firstName = false → missing lastName = false → missing phone = false →
  f SelectUserByPhone = false → f InsertUser = false →
  user_by_phone d phone = None →
  let res := post_auth_request_otp f node_env random now firstName lastName
               phone role d in
  let newId := next_id (row_id <$> users d) in
  is_ok res.1 = true ∧
  users res.2 =
    (users d ++
       [{| row_id := newId; first_name := firstName; last_name := lastName;
           row_phone := phone;
           row_role := if String.eqb role "family" then "family" else "elderly" |}]) ∧
  (newId ∉ row_id <$> users d) ∧
  is_Some (settings res.2 !! newId) ∧
  contacts res.2 = contacts d.
Proof.
  intros H1 H2 H3 Hf1 Hf2 Hnone. cbn zeta.
  rewrite request_otp_accepted by done. rewrite Hnone, Hf2. cbn zeta. cbn [fst snd].
  destruct (generateAndStoreOtp_tables f random now phone
              (ensureSettings (next_id (row_id <$> users d))
                 (set_users (users d ++ [inserted_row firstName lastName phone role d]) d)))
    as (Hus & Hcs & Hss).
  rewrite Hus, Hcs, Hss.
  rewrite (proj1 (ensureSettings_tables _ _)).
  rewrite (proj1 (proj2 (ensureSettings_tables _ _))).
  split_and!.
  - done.
  - cbn. unfold inserted_row, role_value. do 3 f_equal.
    destruct (String.eqb_spec role "elderly") as [-> |]; [done |].
    by destruct (String.eqb role "family").
  - intros Hin. apply next_id_fresh in Hin. lia.
  - apply ensureSettings_has.
  - done.
Qed.

Lemma request_otp_new_phone_example :
  let res := post_auth_request_otp no_faults "production" (1 # 2) 1000
               "Somsri" "Jaidee" "0833333333" "nurse" db_family in
  let newId := next_id (row_id <$> users db_family) in
  is_ok res.1 = true ∧
  users res.2 =
    (users db_family ++
       [{| row_id := newId; first_name := "Somsri"; last_name := "Jaidee";
           row_phone := "0833333333";
           row_role := if String.eqb "nurse" "family" then "family" else "elderly" |}]) ∧
  (newId ∉ row_id <$> users db_family) ∧
  is_Some (settings res.2 !! newId) ∧
  contacts res.2 = contacts db_family.
Proof.
  apply (request_otp_new_phone no_faults "production" (1 # 2) 1000
           "Somsri" "Jaidee" "0833333333" "nurse" db_family); reflexivity.
Defined.

(** X5: request-otp for a phone that has a user: the answer is ok, no row is
    added or removed and no key or phone changes; the row found for the
    phone now carries the submitted names and the normalised role, and
    rows with another key are left as they were. *)
Theorem request_otp_existing_phone
    f node_env random now firstName lastName phone role d row :
  missing firstName = false → missing lastName = false → missing phone = false →
  f SelectUserByPhone = false → f UpdateUser = false →
  user_by_phone d phone = Some row →
  let res := post_auth_request_otp f node_env random now firstName lastName
               phone role d in
  is_ok res.1 = true ∧
  row_id <$> users res.2 = row_id <$> users d ∧
  row_phone <$> users res.2 = row_phone <$> users d ∧
  user_by_phone res.2 phone =
    Some {| row_id := row_id row; first_name := firstName; last_name := lastName;
            row_phone := phone; row_role := role_value role |} ∧
  (∀ r, r ∈ users d → row_id r ≠ row_id row → r ∈ users res.2).
Proof.
  intros H1 H2 H3 Hf1 Hf2 Hrow. cbn zeta.
  rewrite request_otp_accepted by done. rewrite Hrow, Hf2. cbn zeta. cbn [fst snd].
  set (g := updated_row firstName lastName role (row_id row)).
  assert (Hus : users (generateAndStoreOtp f random now phone
                         (ensureSettings (row_id row) (set_users (g <$> users d) d))).2
                = g <$> users d).
  { rewrite (proj1 (generateAndStoreOtp_tables _ _ _ _ _)).
    by rewrite (proj1 (ensureSettings_tables _ _)). }
  assert (Hid : ∀ r, row_id (g r) = row_id r).
  { intros r. unfold g, updated_row. by destruct (row_id r =? row_id row). }
  assert (Hph : ∀ r, row_phone (g r) = row_phone r).
  { intros r. unfold g, updated_row. by destruct (row_id r =? row_id row). }
  unfold user_by_phone. rewrite Hus. split_and!.
  - done.
  - rewrite <- list_fmap_compose. apply list_fmap_ext. intros i r _. apply Hid.
  - rewrite <- list_fmap_compose. apply list_fmap_ext. intros i r _. apply Hph.
  - rewrite find_fmap_same by (intros r; by rewrite Hph).
    unfold user_by_phone in Hrow. rewrite Hrow. cbn. unfold g, updated_row.
    rewrite Z.eqb_refl. do 2 f_equal.
    apply List.find_some in Hrow as [_ Hp]. by apply String.eqb_eq in Hp.
  - intros r Hr Hne. apply list_elem_of_fmap. exists r. split; [| done].
    unfold g, updated_row. apply Z.eqb_neq in Hne. by rewrite Hne.
Qed.

Lemma request_otp_existing_phone_example :
  let res := post_auth_request_otp no_faults "production" (1 # 2) 1000
               "Somchai" "Rakdee" "0811111111" "family" db_family in
  is_ok res.1 = true ∧
  row_id <$> users res.2 = row_id <$> users db_family ∧
  row_phone <$> users res.2 = row_phone <$> users db_family ∧
  user_by_phone res.2 "0811111111" =
    Some {| row_id := row_id somchai; first_name := "Somchai"; last_name := "Rakdee";
            row_phone := "0811111111"; row_role := role_value "family" |} ∧
  (∀ r, r ∈ users db_family → row_id r ≠ row_id somchai → r ∈ users res.2).
Proof.
  apply (request_otp_existing_phone no_faults "production" (1 # 2) 1000
           "Somchai" "Rakdee" "0811111111" "family" db_family somchai); reflexivity.
Defined.

Lemma find_elem_phone d p : user_by_phone d p = None → p ∉ row_phone <$> users d.
Proof.
  intros Hnone Hin. apply list_elem_of_fmap in Hin as (r & -> & Hr).
  apply list_elem_of_In in Hr.
  pose proof (List.find_none _ _ Hnone r Hr) as Hf. cbn in Hf.
  by rewrite String.eqb_refl in Hf.
Qed.

(** X6: request-otp never breaks the constraints of [users]: phones stay
    unique, because a row is inserted only for a phone no row has, and
    every role stays 'elderly' or 'family', whatever role was submitted. *)
Theorem request_otp_keeps_users_constraints
    f node_env random now firstName lastName phone role d :
  phones_unique d → roles_valid d →
  let d' := (post_auth_request_otp f node_env random now firstName lastName
               phone role d).2 in
  phones_unique d' ∧ roles_valid d'.
Proof.
  intros Hph Hro. cbn zeta.
  destruct (missing firstName || missing lastName || missing phone) eqn:Hmiss.
  { unfold post_auth_request_otp. by rewrite Hmiss. }
  apply orb_false_iff in Hmiss as [Hmiss H3].
  apply orb_false_iff in Hmiss as [H1 H2].
  destruct (f SelectUserByPhone) eqn:Hf.
  { unfold post_auth_request_otp. by rewrite H1, H2, H3, Hf. }
  rewrite request_otp_accepted by done.
  destruct (user_by_phone d phone) as [row|] eqn:Hrow.
  - destruct (f UpdateUser); [done |]. cbn zeta. cbn [snd].
    unfold phones_unique, roles_valid.
    rewrite (proj1 (generateAndStoreOtp_tables _ _ _ _ _)).
    rewrite (proj1 (ensureSettings_tables _ _)). cbn [users set_users]. split.
    + rewrite <- list_fmap_compose. erewrite list_fmap_ext; [exact Hph |].
      intros i r _. cbn. unfold updated_row. by destruct (row_id r =? row_id row).
    + intros r Hr. apply list_elem_of_fmap in Hr as (r0 & -> & Hr0).
      unfold updated_row. destruct (row_id r0 =? row_id row); [| by apply Hro].
      cbn. apply role_value_valid.
  - destruct (f InsertUser); [done |]. cbn zeta. cbn [snd].
    unfold phones_unique, roles_valid.
    rewrite (proj1 (generateAndStoreOtp_tables _ _ _ _ _)).
    rewrite (proj1 (ensureSettings_tables _ _)). cbn [users set_users]. split.
    + rewrite fmap_app. apply NoDup_app. split_and!; [done | | apply NoDup_singleton].
      intros p Hp Hp'. cbn in Hp'. apply list_elem_of_singleton in Hp'. subst p.
      by apply (find_elem_phone d phone).
    + intros r Hr. apply elem_of_app in Hr as [Hr | Hr]; [by apply Hro |].
      apply list_elem_of_singleton in Hr as ->. cbn. apply role_value_valid.
Qed.

Lemma db_family_phones_unique : phones_unique db_family.
Proof.
  unfold phones_unique. cbn. apply NoDup_cons. split; [| apply NoDup_singleton].
  intros H. apply list_elem_of_singleton in H. discriminate.
Qed.

Lemma db_family_roles_valid : roles_valid db_family.
Proof.
  intros r Hr. cbn in Hr. apply elem_of_cons in Hr as [-> | Hr]; [by left |].
  apply list_elem_of_singleton in Hr as ->. by right.
Qed.

Lemma request_otp_keeps_users_constraints_example :
  let d' := (post_auth_request_otp no_faults "production" (1 # 2) 1000
               "Somsri" "Jaidee" "0833333333" "nurse" db_family).2 in
  phones_unique d' ∧ roles_valid d'.
Proof.
  apply (request_otp_keeps_users_constraints no_faults "production" (1 # 2) 1000
           "Somsri" "Jaidee" "0833333333" "nurse" db_family).
  - exact db_family_phones_unique.
  - exact db_family_roles_valid.
Defined.

(** X7: The code reaches the client only outside production: in production the
    answer's [devCode] is undefined, otherwise it is the code just stored
    for the phone, with its expiry 300000 ms after the request. *)
Theorem request_otp_dev_code
    f node_env random now firstName lastName phone role d body :
  f ReplaceOtp = false →
  let res := post_auth_request_otp f node_env random now firstName lastName
               phone role d in
  res.1 = Ok body →
  ∃ code,
    otps res.2 !! phone = Some {| row_code := code; expires_at := now + 300000 |} ∧
    body = [("ok", VBool true);
            ("devCode", if decide (node_env = "production") then VUndefined
                        else VStr code)].
Proof.
  intros Hf. cbn zeta. unfold post_auth_request_otp.
  destruct (missing firstName || missing lastName || missing phone); [done |].
  destruct (f SelectUserByPhone); [done |].
  assert (Henv : ∀ code : string,
            (if String.eqb node_env "production" then VUndefined else VStr code)
            = if decide (node_env = "production") then VUndefined else VStr code).
  { intros code. destruct (String.eqb_spec node_env "production");
      [by rewrite decide_True | by rewrite decide_False]. }
  destruct (user_by_phone d phone) as [row|].
  - destruct (f UpdateUser); [done |]. unfold generateAndStoreOtp. rewrite Hf.
    cbn. intros [= <-]. eexists. split; [apply lookup_insert_eq |].
    by rewrite Henv.
  - destruct (f InsertUser); [done |]. unfold generateAndStoreOtp. rewrite Hf.
    cbn. intros [= <-]. eexists. split; [apply lookup_insert_eq |].
    by rewrite Henv.
Qed.

Lemma request_otp_dev_code_example :
  let res := post_auth_request_otp no_faults "development" (1 # 2) 1000
               "Somsri" "Jaidee" "0833333333" "nurse" db_family in
  ∃ code,
    otps res.2 !! "0833333333"
      = Some {| row_code := code; expires_at := 1000 + 300000 |} ∧
    [("ok", VBool true); ("devCode", VStr "550000")] =
    [("ok", VBool true);
     ("devCode", if decide ("development" = "production") then VUndefined
                 else VStr code)].
Proof.
  apply (request_otp_dev_code no_faults "development" (1 # 2) 1000
           "Somsri" "Jaidee" "0833333333" "nurse" db_family
           [("ok", VBool true); ("devCode", VStr "550000")]).
  - reflexivity.
  - reflexivity.
Defined.



(** verify-otp on its successful path. *)
Lemma verify_otp_accepted f now phone code d sess row uRow :
  missing phone = false → missing code = false →
  f SelectOtp = false → f SelectUserByPhone = false →
  otps d !! phone = Some row → row_code row = code → now ≤ expires_at row →
  user_by_phone d phone = Some uRow →
  post_auth_verify_otp f now phone code d sess
  = (Ok [("ok", VBool true); ("user", user_json (rowToUser uRow))],
     set_otps (delete phone (otps d)) d,
     Some (rowToUser uRow)).
Proof.
  intros Hp Hc Hf1 Hf2 Hrow Hcode Hexp Hu. unfold post_auth_verify_otp.
  rewrite Hp, Hc, Hf1, Hf2, Hrow, Hu. cbn [orb].
  apply String.eqb_eq in Hcode. rewrite Hcode. cbn [negb].
  destruct (Z.ltb_spec (expires_at row) now); [lia | done].
Qed.

(** X9: Logging in: after a request-otp that went through, verify-otp for the
    same phone with the stored code, at any time up to 300000 ms after
    the request, succeeds; the session then holds a user with the
    submitted names, the phone and the normalised role, and the code is
    consumed. *)
Theorem login_round_trip
    f node_env random now now' firstName lastName phone role d sess :
  missing firstName = false → missing lastName = false → missing phone = false →
  f SelectUserByPhone = false → f InsertUser = false → f UpdateUser = false →
  f ReplaceOtp = false → f SelectOtp = false →
  now' ≤ now + 300000 →
  let issued := post_auth_request_otp f node_env random now firstName lastName
                  phone role d in
  ∃ code id,
    is_ok issued.1 = true ∧
    otps issued.2 !! phone = Some {| row_code := code; expires_at := now + 300000 |} ∧
    let u := {| user_id := id; firstName := firstName; lastName := lastName;
                user_phone := phone; user_role := role_value role |} in
    post_auth_verify_otp f now' phone code issued.2 sess
    = (Ok [("ok", VBool true); ("user", user_json u)],
       set_otps (delete phone (otps issued.2)) issued.2,
       Some u).
Proof.
  intros H1 H2 H3 Hf1 Hf2 Hf3 Hf4 Hf5 Hnow. cbn zeta.
  rewrite request_otp_accepted by done. rewrite Hf2, Hf3.
  set (code := int_to_string
                 (Qfloor (binary64 (100000 + binary64 (random * 900000))))).
  assert (Hcode : missing code = false) by apply missing_false, int_to_string_nonempty.
  destruct (user_by_phone d phone) as [row|] eqn:Hrow; cbn zeta; cbn [fst snd].
  - exists code, (row_id row).
    set (d2 := ensureSettings (row_id row)
                 (set_users (updated_row firstName lastName role (row_id row)
                               <$> users d) d)).
    assert (Hgen : (generateAndStoreOtp f random now phone d2).2
              = set_otps (<[phone := {| row_code := code;
                                        expires_at := now + 300000 |}]> (otps d2)) d2).
    { unfold generateAndStoreOtp. by rewrite Hf4. }
    rewrite Hgen. split_and!; [done | apply lookup_insert_eq |].
    rewrite (verify_otp_accepted f now' phone code _ sess
               {| row_code := code; expires_at := now + 300000 |}
               {| row_id := row_id row; first_name := firstName;
                  last_name := lastName; row_phone := phone;
                  row_role := role_value role |}); try done.
    + apply lookup_insert_eq.
    + unfold user_by_phone. cbn [users set_otps]. unfold d2.
      rewrite (proj1 (ensureSettings_tables _ _)). cbn [users set_users].
      rewrite find_fmap_same.
      2: { intros r. unfold updated_row. by destruct (row_id r =? row_id row). }
      unfold user_by_phone in Hrow. rewrite Hrow. cbn. unfold updated_row.
      rewrite Z.eqb_refl. do 2 f_equal.
      apply List.find_some in Hrow as [_ Hp]. by apply String.eqb_eq in Hp.
  - exists code, (next_id (row_id <$> users d)).
    set (d2 := ensureSettings (next_id (row_id <$> users d))
                 (set_users (users d ++
                    [inserted_row firstName lastName phone role d]) d)).
    assert (Hgen : (generateAndStoreOtp f random now phone d2).2
              = set_otps (<[phone := {| row_code := code;
                                        expires_at := now + 300000 |}]> (otps d2)) d2).
    { unfold generateAndStoreOtp. by rewrite Hf4. }
    rewrite Hgen. split_and!; [done | apply lookup_insert_eq |].
    rewrite (verify_otp_accepted f now' phone code _ sess
               {| row_code := code; expires_at := now + 300000 |}
               (inserted_row firstName lastName phone role d)); try done.
    + apply lookup_insert_eq.
    + unfold user_by_phone. cbn [users set_otps]. unfold d2.
      rewrite (proj1 (ensureSettings_tables _ _)). cbn [users set_users].
      rewrite find_app_None by exact Hrow. cbn. by rewrite String.eqb_refl.
Qed.

Lemma login_round_trip_example :
  let issued := post_auth_request_otp no_faults "production" (1 # 2) 1000
                  "Somsri" "Jaidee" "0833333333" "family" db_family in
  ∃ code id,
    is_ok issued.1 = true ∧
    otps issued.2 !! "0833333333"
      = Some {| row_code := code; expires_at := 1000 + 300000 |} ∧
    let u := {| user_id := id; firstName := "Somsri"; lastName := "Jaidee";
                user_phone := "0833333333"; user_role := role_value "family" |} in
    post_auth_verify_otp no_faults 301000 "0833333333" code issued.2 None
    = (Ok [("ok", VBool true); ("user", user_json u)],
       set_otps (delete "0833333333" (otps issued.2)) issued.2,
       Some u).
Proof.
  apply (login_round_trip no_faults "production" (1 # 2) 1000 301000
           "Somsri" "Jaidee" "0833333333" "family" db_family None);
    reflexivity.
Defined.

Lemma ensureSettings_preserves u v d r :
  settings d !! u = Some r → settings (ensureSettings v d) !! u = Some r.
Proof.
  intros Hr. unfold ensureSettings. destruct (settings d !! v) eqn:Hv; [done |].
  cbn. rewrite lookup_insert_ne; [done |]. intros ->. congruence.
Qed.

(** X10: A user's notification toggles survive a new login and the adding of
    contacts, by the user or by others: [ensureSettings] only fills in a
    missing row, so a stored settings row is never reset by request-otp or
    contacts/add. *)
Theorem stored_settings_are_never_reset
    f node_env random now firstName lastName phone role sess d u r :
  settings d !! u = Some r →
  settings (post_auth_request_otp f node_env random now firstName lastName
              phone role d).2 !! u = Some r ∧
  settings (post_contacts_add f sess phone d).2 !! u = Some r.
Proof.
  intros Hr. split.
  - unfold post_auth_request_otp.
    destruct (missing firstName || missing lastName || missing phone); [done |].
    destruct (f SelectUserByPhone); [done |].
    destruct (user_by_phone d phone) as [row|].
    + destruct (f UpdateUser); [done |].
      match goal with |- context [generateAndStoreOtp f random now phone ?d2] =>
        pose proof (generateAndStoreOtp_tables f random now phone d2) as (_ & _ & Hs);
        destruct (generateAndStoreOtp f random now phone d2) as [c d3] end.
      cbn [snd] in *. rewrite Hs. by apply ensureSettings_preserves.
    + destruct (f InsertUser); [done |].
      match goal with |- context [generateAndStoreOtp f random now phone ?d2] =>
        pose proof (generateAndStoreOtp_tables f random now phone d2) as (_ & _ & Hs);
        destruct (generateAndStoreOtp f random now phone d2) as [c d3] end.
      cbn [snd] in *. rewrite Hs. by apply ensureSettings_preserves.
  - unfold post_contacts_add. destruct sess as [me|]; [| done].
    destruct (missing phone); [done |].
    destruct (f SelectUserByPhone); [done |].
    destruct (user_by_phone d phone) as [row|]; [| done].
    destruct (row_id row =? user_id me); [done |].
    assert (H0 : settings (ensureSettings (row_id row)
                             (ensureSettings (user_id me) d)) !! u = Some r).
    { by do 2 apply ensureSettings_preserves. }
    destruct (f (InsertContact (user_id me) (row_id row))); [done |].
    destruct (f (InsertContact (row_id row) (user_id me))); cbn [snd];
      by rewrite !(proj1 (proj2 (insert_contact_tables _ _ _))).
Qed.

Lemma stored_settings_example :
  let r := {| elderly_notify_exercise := of_Z 0; elderly_notify_checkup := of_Z 1;
              family_notify_parent_done := of_Z 0 |} in
  let d := set_settings (<[1 := r]> (settings db_family)) db_family in
  settings (post_auth_request_otp no_faults "production" (1 # 2) 1000
              "Somchai" "Jaidee" "0811111111" "elderly" d).2 !! 1 = Some r ∧
  settings (post_contacts_add no_faults (Some (rowToUser malee))
              "0811111111" d).2 !! 1 = Some r.
Proof.
  apply (stored_settings_are_never_reset no_faults "production" (1 # 2) 1000
           "Somchai" "Jaidee" "0811111111" "elderly" (Some (rowToUser malee))).
  reflexivity.
Defined.

End Login.

(** ** More on contacts *)

Section ContactGraph.

Implicit Types (f : faults) (d : db) (sess : option user) (a b u : Z).

Lemma insert_contact_elem a b d (c : Z * Z) :
  c ∈ contacts (insert_contact a b d) ↔ c ∈ contacts d ∨ c = (a, b).
Proof.
  unfold insert_contact. case_decide as Hin.
  - split; [by left |]. intros [? | ->]; done.
  - cbn. rewrite elem_of_app, list_elem_of_singleton. done.
Qed.

Lemma ensureSettings_contacts u d : contacts (ensureSettings u d) = contacts d.
Proof. apply ensureSettings_tables. Qed.

(** X11: contacts/add never makes a user their own contact. *)
Theorem contacts_add_never_adds_self f sess phone d :
  no_self_contact d → no_self_contact (post_contacts_add f sess phone d).2.
Proof.
  intros Hno. unfold post_contacts_add. destruct sess as [me|]; [| done].
  destruct (missing phone); [done |].
  destruct (f SelectUserByPhone); [done |].
  destruct (user_by_phone d phone) as [row|]; [| done].
  destruct (Z.eqb_spec (row_id row) (user_id me)) as [| Hne]; [done |].
  assert (H0 : no_self_contact (ensureSettings (row_id row)
                                  (ensureSettings (user_id me) d))).
  { intros a. rewrite !ensureSettings_contacts. apply Hno. }
  assert (H1 : no_self_contact (insert_contact (user_id me) (row_id row)
                 (ensureSettings (row_id row) (ensureSettings (user_id me) d)))).
  { intros a Ha. apply insert_contact_elem in Ha as [Ha | [= -> Hb]];
      [by apply (H0 a) | done]. }
  destruct (f (InsertContact (user_id me) (row_id row))); [done |].
  destruct (f (InsertContact (row_id row) (user_id me))); [done |]. cbn [snd].
  intros a Ha. apply insert_contact_elem in Ha as [Ha | [= -> Hb]];
    [by apply (H1 a) | done].
Qed.

Lemma db_family_no_self_contact : no_self_contact db_family.
Proof.
  intros a Ha. cbn in Ha. apply elem_of_cons in Ha as [[= -> ?] | Ha]; [done |].
  apply list_elem_of_singleton in Ha as [= -> ?]. done.
Qed.

Lemma contacts_add_never_adds_self_example :
  no_self_contact (post_contacts_add no_faults (Some (rowToUser somchai))
                     "0811111111" db_family).2.
Proof.
  apply (contacts_add_never_adds_self no_faults (Some (rowToUser somchai))
           "0811111111" db_family).
  exact db_family_no_self_contact.
Defined.

(** X12: While neither insert of contacts/add fails, the contact relation stays
    symmetric: every row has its mirror row. *)
Theorem contacts_add_keeps_symmetry f sess phone d :
  (∀ a b, f (InsertContact a b) = false) →
  contacts_symmetric d →
  contacts_symmetric (post_contacts_add f sess phone d).2.
Proof.
  intros Hf Hsym. unfold post_contacts_add. destruct sess as [me|]; [| done].
  destruct (missing phone); [done |].
  destruct (f SelectUserByPhone); [done |].
  destruct (user_by_phone d phone) as [row|]; [| done].
  destruct (row_id row =? user_id me); [done |].
  rewrite !Hf. cbn [snd]. intros a b Hab.
  apply insert_contact_elem in Hab as [Hab | [= -> ->]].
  - apply insert_contact_elem in Hab as [Hab | [= -> ->]].
    + rewrite !ensureSettings_contacts in Hab.
      apply insert_contact_keeps, insert_contact_keeps.
      rewrite !ensureSettings_contacts. by apply Hsym.
    + apply insert_contact_in.
  - apply insert_contact_keeps, insert_contact_in.
Qed.

Lemma db_family_contacts_symmetric : contacts_symmetric db_family.
Proof.
  intros a b Hab. cbn in *. apply elem_of_cons in Hab as [[= -> ->] | Hab].
  - set_solver.
  - apply list_elem_of_singleton in Hab as [= -> ->]. set_solver.
Qed.

Lemma contacts_add_keeps_symmetry_example :
  contacts_symmetric (post_contacts_add no_faults (Some (rowToUser somchai))
                        "0822222222" db_family).2.
Proof.
  apply (contacts_add_keeps_symmetry no_faults (Some (rowToUser somchai))
           "0822222222" db_family).
  - reflexivity.
  - exact db_family_contacts_symmetric.
Defined.

(** X13: The two inserts of contacts/add are not undone together: when the first
    goes through and the second fails, the answer is 500 db_error, yet the
    caller's row stays while the mirror row is missing, so the relation is
    left one-directional. *)
Theorem contacts_add_second_insert_failure f me phone d row :
  missing phone = false →
  f SelectUserByPhone = false →
  user_by_phone d phone = Some row →
  row_id row ≠ user_id me →
  f (InsertContact (user_id me) (row_id row)) = false →
  f (InsertContact (row_id row) (user_id me)) = true →
  (row_id row, user_id me) ∉ contacts d →
  let res := post_contacts_add f (Some me) phone d in
  res.1 = Err 500 "db_error" ∧
  (user_id me, row_id row) ∈ contacts res.2 ∧
  ((row_id row, user_id me) ∉ contacts res.2) ∧
  ¬ contacts_symmetric res.2.
Proof.
  intros Hp Hf Hrow Hne Hf1 Hf2 Hnot. cbn zeta. unfold post_contacts_add.
  rewrite Hp, Hf, Hrow, Hf1, Hf2. apply Z.eqb_neq in Hne as Hne'. rewrite Hne'.
  cbn [fst snd].
  assert (Hin : (user_id me, row_id row) ∈ contacts
            (insert_contact (user_id me) (row_id row)
               (ensureSettings (row_id row) (ensureSettings (user_id me) d))))
    by apply insert_contact_in.
  assert (Hout : (row_id row, user_id me) ∉ contacts
            (insert_contact (user_id me) (row_id row)
               (ensureSettings (row_id row) (ensureSettings (user_id me) d)))).
  { intros H. apply insert_contact_elem in H as [H | [= H1 H2]]; [| done].
    rewrite !ensureSettings_contacts in H. done. }
  split_and!; [done | done | done |].
  intros Hsym. apply Hout. by apply Hsym.
Qed.

Lemma contacts_add_second_insert_failure_example :
  let f := λ s, match s with InsertContact 2 1 => true | _ => false end in
  let res := post_contacts_add f (Some (rowToUser somchai)) "0822222222"
               db_init_two in
  res.1 = Err 500 "db_error" ∧
  (1, 2) ∈ contacts res.2 ∧
  ((2, 1) ∉ contacts res.2) ∧
  ¬ contacts_symmetric res.2.
Proof.
  apply (contacts_add_second_insert_failure
           (λ s, match s with InsertContact 2 1 => true | _ => false end)
           (rowToUser somchai) "0822222222" db_init_two malee).
  - reflexivity.
  - reflexivity.
  - reflexivity.
  - cbn. lia.
  - reflexivity.
  - reflexivity.
  - cbn. apply not_elem_of_nil.
Defined.

Lemma contact_rows_elem d u r :
  r ∈ contact_rows d u ↔ r ∈ users d ∧ (u, row_id r) ∈ contacts d.
Proof.
  unfold contact_rows. rewrite list_elem_of_bind. split.
  - intros ([a b] & Hr & Hc). cbn in Hr.
    destruct (decide (a = u)) as [-> |]; [| by apply elem_of_nil in Hr].
    apply list_elem_of_filter in Hr as [Hid Hr]. by subst b.
  - intros [Hr Hc]. exists (u, row_id r). split; [| done]. cbn.
    rewrite decide_True by done. by apply list_elem_of_filter.
Qed.

Lemma contact_rows_NoDup d u : keys_unique d → NoDup (row_id <$> contact_rows d u).
Proof.
  intros [Hu Hc]. apply NoDup_fmap_2_strong.
  - intros r1 r2 H1 H2 Heq.
    apply contact_rows_elem in H1 as [H1 _]. apply contact_rows_elem in H2 as [H2 _].
    by apply (NoDup_fmap_elem_inj row_id (users d)).
  - unfold contact_rows. apply NoDup_bind; [| | done].
    + intros [a1 b1] [a2 b2] y _ _ H1 H2. cbn in H1, H2.
      destruct (decide (a1 = u)) as [-> |]; [| by apply elem_of_nil in H1].
      destruct (decide (a2 = u)) as [-> |]; [| by apply elem_of_nil in H2].
      apply list_elem_of_filter in H1 as [Hid1 _].
      apply list_elem_of_filter in H2 as [Hid2 _].
      congruence.
    + intros [a b] _. cbn. case_decide; [| constructor].
      apply NoDup_filter. by apply NoDup_fmap_1 in Hu.
Qed.

#[local] Instance by_first_name_total : Total by_first_name.
Proof. intros a b. apply String.leb_total. Qed.

(** X14: The contact list: a user appears in it exactly when the caller has a
    contact row to that user's [users] row, with [online] telling whether
    the registry has an entry for the user at that moment; the list is
    ordered by first name and, under the key constraints, names each
    contact once. *)
Theorem contact_list_content srv me d :
  keys_unique d →
  ∃ l,
    get_contacts false srv (Some me) d = Reply l ∧
    (∀ v, v ∈ l ↔
       ∃ r, r ∈ users d ∧ (user_id me, row_id r) ∈ contacts d ∧
            v = {| contact := rowToUser r; online := isOnline srv (row_id r) |}) ∧
    Sorted (λ v w, String.leb (firstName (contact v)) (firstName (contact w)) = true) l ∧
    NoDup ((λ v, user_id (contact v)) <$> l).
Proof.
  intros Hkeys. eexists. split; [reflexivity |].
  set (rows := merge_sort by_first_name (contact_rows d (user_id me))).
  assert (Hperm : rows ≡ₚ contact_rows d (user_id me))
    by apply merge_sort_Permutation.
  split_and!.
  - intros v. rewrite list_elem_of_fmap. split.
    + intros (r & -> & Hr). rewrite Hperm in Hr.
      apply contact_rows_elem in Hr as [Hr Hc]. by exists r.
    + intros (r & Hr & Hc & ->). exists r. split; [done |].
      rewrite Hperm. by apply contact_rows_elem.
  - apply (Sorted_fmap _ by_first_name); [by intros x y |].
    apply Sorted_merge_sort, _.
  - rewrite <- list_fmap_compose.
    assert (Hids : (λ v : contact_view, user_id (contact v)) ∘
                   (λ r, {| contact := rowToUser r;
                            online := isOnline srv (row_id r) |}) <$> rows
                   = row_id <$> rows) by done.
    rewrite Hids, Hperm. by apply contact_rows_NoDup.
Qed.

Lemma contact_list_content_example :
  ∃ l,
    get_contacts false (on_connection phone_socket server_init).1
      (Some (rowToUser malee)) db_family = Reply l ∧
    (∀ v, v ∈ l ↔
       ∃ r, r ∈ users db_family ∧ (2, row_id r) ∈ contacts db_family ∧
            v = {| contact := rowToUser r;
                   online := isOnline (on_connection phone_socket server_init).1
                               (row_id r) |}) ∧
    Sorted (λ v w, String.leb (firstName (contact v)) (firstName (contact w)) = true) l ∧
    NoDup ((λ v, user_id (contact v)) <$> l).
Proof.
  apply (contact_list_content (on_connection phone_socket server_init).1
           (rowToUser malee) db_family).
  exact db_family_keys_unique.
Defined.

(** One contact, online: the list of user 2 is user 1 with [online] set. *)
Example contact_list_of_malee :
  get_contacts false (on_connection phone_socket server_init).1
    (Some (rowToUser malee)) db_family
  = Reply [{| contact := rowToUser somchai; online := true |}].
Proof. vm_compute. reflexivity. Qed.

(** X15: After a contacts/add that went through, each of the two users finds the
    other in the contact list: the caller sees the user with that phone,
    and that user, asking with their own session, sees the caller. *)
Theorem contacts_listed_after_add f srv me mine phone d row :
  missing phone = false →
  f SelectUserByPhone = false → (∀ a b, f (InsertContact a b) = false) →
  user_by_phone d phone = Some row →
  row_id row ≠ user_id me →
  mine ∈ users d → row_id mine = user_id me →
  let d' := (post_contacts_add f (Some me) phone d).2 in
  ∃ l1 l2,
    get_contacts false srv (Some me) d' = Reply l1 ∧
    {| contact := rowToUser row; online := isOnline srv (row_id row) |} ∈ l1 ∧
    get_contacts false srv (Some (rowToUser row)) d' = Reply l2 ∧
    {| contact := rowToUser mine; online := isOnline srv (user_id me) |} ∈ l2.
Proof.
  intros Hp Hf Hfi Hrow Hne Hmine Hid. cbn zeta.
  rewrite (contacts_add_ok f me phone d row) by done. cbn [snd].
  set (d' := insert_contact _ _ _).
  assert (Hus : users d' = users d).
  { unfold d'. rewrite !(proj1 (insert_contact_tables _ _ _)).
    by rewrite !(proj1 (ensureSettings_tables _ _)). }
  assert (Hr : row ∈ users d).
  { unfold user_by_phone in Hrow. apply List.find_some in Hrow as [Hin _].
    by apply list_elem_of_In. }
  do 2 eexists. split; [reflexivity |]. split; [| split; [reflexivity |]].
  - apply list_elem_of_fmap. exists row. split; [done |].
    rewrite merge_sort_Permutation. apply contact_rows_elem. rewrite Hus.
    split; [done |]. unfold d'. apply insert_contact_keeps, insert_contact_in.
  - apply list_elem_of_fmap. exists mine. split; [by rewrite Hid |].
    rewrite merge_sort_Permutation. apply contact_rows_elem. rewrite Hus.
    split; [done |]. cbn. rewrite Hid. unfold d'. apply insert_contact_in.
Qed.

Lemma contacts_listed_after_add_example :
  let d' := (post_contacts_add no_faults (Some (rowToUser somchai))
               "0822222222" db_init_two).2 in
  ∃ l1 l2,
    get_contacts false server_init (Some (rowToUser somchai)) d' = Reply l1 ∧
    {| contact := rowToUser malee; online := isOnline server_init 2 |} ∈ l1 ∧
    get_contacts false server_init (Some (rowToUser malee)) d' = Reply l2 ∧
    {| contact := rowToUser somchai; online := isOnline server_init 1 |} ∈ l2.
Proof.
  apply (contacts_listed_after_add no_faults server_init (rowToUser somchai)
           somchai "0822222222" db_init_two malee).
  - reflexivity.
  - reflexivity.
  - reflexivity.
  - reflexivity.
  - cbn. lia.
  - cbn. left.
  - reflexivity.
Defined.

End ContactGraph.

(** ** More on messages and exercise logs *)

Section Logs.

Implicit Types (f : faults) (d : db) (sess : option user) (reg : gmap Z presence).

Lemma as_key_VInt (u : Z) : as_key (VInt u) = Some u.
Proof.
  unfold as_key, VInt, of_Z. rewrite Qfloor_Z.
  assert (H : Qeq_bool (inject_Z u) (inject_Z u) = true) by (by apply Qeq_bool_iff).
  by rewrite H.
Qed.

Lemma truthy_VInt (u : Z) : u ≠ 0 → truthy (VInt u) = true.
Proof.
  intros Hu. unfold truthy, VInt, of_Z.
  destruct (Qeq_bool (inject_Z u) 0) eqn:E; [| done].
  apply Qeq_bool_iff in E. change 0%Q with (inject_Z 0) in E.
  apply (proj1 (inject_Z_injective _ _)) in E. done.
Qed.

(** X16: A direct message to an existing user, with the recipient given as
    a non-zero integer and a non-empty string as content, from a session
    user that has a [users] row: it is stored as one row without the group
    flag, with that recipient and content, under a key no message had,
    and that key is the [id] of the answer; at most one event is emitted,
    and one is emitted exactly when the recipient has a registry entry, to
    that entry's socket. *)
Theorem direct_message_delivery f me (u : Z) (s : string) isGroup d reg :
  u ≠ 0 → s ≠ "" → truthy isGroup = false →
  user_id me ∈ row_id <$> users d → u ∈ row_id <$> users d →
  f InsertMessage = false →
  let res := post_messages f (Some me) (VInt u) (VStr s) isGroup d in
  let newId := next_id (message_id <$> messages d) in
  res.1.1 = Ok [("ok", VBool true); ("id", VInt newId)] ∧
  messages res.1.2 =
    (messages d ++
       [{| message_id := newId; from_user_id := user_id me;
           to_user_id := VInt u; is_group := 0; content := VStr s |}]) ∧
  (newId ∉ message_id <$> messages d) ∧
  (length (relay_all reg res.2) ≤ 1)%nat ∧
  (∀ e, e ∈ relay_all reg res.2 ↔
     ∃ t, reg !! u = Some t ∧
          e = io_to_emit (socketId t) "message:new"
                [("id", VInt newId); ("fromUserId", VInt (user_id me));
                 ("toUserId", VInt u); ("content", VStr s);
                 ("isGroup", VBool false)]).
Proof.
  intros Hu Hs Hg _ _ Hf. cbn zeta. unfold post_messages.
  assert (Ht : truthy (VStr s) = true).
  { cbn. apply String.eqb_neq in Hs. by rewrite Hs. }
  rewrite Ht, Hg, (truthy_VInt u Hu), Hf, as_key_VInt.
  cbn [negb fst snd messages set_messages].
  split_and!; [done | done | | |].
  - intros Hin. apply next_id_fresh in Hin. lia.
  - etrans; [apply relay_all_length |]. cbn. lia.
  - intros e. unfold relay_all. rewrite list_elem_of_bind. split.
    + intros (p & He & Hp). apply list_elem_of_singleton in Hp as ->.
      unfold relay in He. cbn in He.
      apply emitToUser_present in He as (t & Hreg & ->). by exists t.
    + intros (t & Hreg & ->). eexists. split; [| by left].
      unfold relay. cbn. apply emitToUser_present. by exists t.
Qed.

Lemma direct_message_delivery_example :
  let reg := onlineUsers (on_connection
               {| socket_id := "sock-M"; userId := 2; userRole := "family" |}
               server_init).1 in
  let res := post_messages no_faults (Some (rowToUser somchai)) (VInt 2)
               (VStr "hello") VUndefined db_family in
  let newId := next_id (message_id <$> messages db_family) in
  res.1.1 = Ok [("ok", VBool true); ("id", VInt newId)] ∧
  messages res.1.2 =
    (messages db_family ++
       [{| message_id := newId; from_user_id := 1;
           to_user_id := VInt 2; is_group := 0; content := VStr "hello" |}]) ∧
  (newId ∉ message_id <$> messages db_family) ∧
  (length (relay_all reg res.2) ≤ 1)%nat ∧
  (∀ e, e ∈ relay_all reg res.2 ↔
     ∃ t, reg !! 2 = Some t ∧
          e = io_to_emit (socketId t) "message:new"
                [("id", VInt newId); ("fromUserId", VInt 1);
                 ("toUserId", VInt 2); ("content", VStr "hello");
                 ("isGroup", VBool false)]).
Proof.
  apply (direct_message_delivery no_faults (rowToUser somchai) 2 "hello"
           VUndefined db_family).
  - lia.
  - discriminate.
  - reflexivity.
  - cbn. left.
  - cbn. right. left.
  - reflexivity.
Defined.

(** X17: A message or exercise request that is answered with an error has no
    effect: nothing is stored and no relay call is made. *)
Theorem rejected_log_has_no_effect
    f sess toUserId text isGroup today exerciseType duration fatigueLevel
    difficulty d :
  let m := post_messages f sess toUserId text isGroup d in
  let e := post_exercise f sess today exerciseType duration fatigueLevel
             difficulty d in
  (is_ok m.1.1 = false → m.1.2 = d ∧ m.2 = []) ∧
  (is_ok e.1.1 = false → e.1.2 = d ∧ e.2 = []).
Proof.
  cbn zeta. split.
  - unfold post_messages. destruct sess as [me|]; [| done].
    destruct (negb (truthy text)); [done |].
    destruct (truthy isGroup).
    + by destruct (f SelectContacts).
    + destruct (negb (truthy toUserId)); [done |]. by destruct (f InsertMessage).
  - unfold post_exercise. destruct sess as [me|]; [| done].
    destruct (truthy exerciseType); [| done].
    destruct (is_number duration); [| done].
    by destruct (f InsertExercise).
Qed.

Lemma rejected_log_example :
  let m := post_messages no_faults (Some (rowToUser somchai)) (VInt 2)
             (VStr "") VUndefined db_family in
  let e := post_exercise no_faults (Some (rowToUser somchai)) "2024-05-01"
             (VStr "walking") (VStr "20") VUndefined VUndefined db_family in
  (is_ok m.1.1 = false → m.1.2 = db_family ∧ m.2 = []) ∧
  (is_ok e.1.1 = false → e.1.2 = db_family ∧ e.2 = []).
Proof.
  apply (rejected_log_has_no_effect no_faults (Some (rowToUser somchai)) (VInt 2)
           (VStr "") VUndefined "2024-05-01" (VStr "walking") (VStr "20")
           VUndefined VUndefined db_family).
Defined.

(** X18: Only a session whose role is 'elderly' notifies: an exercise logged
    under any other session role makes no relay call, whatever the
    settings and contacts are. *)
Theorem exercise_by_other_role_is_silent
    f me today exerciseType duration fatigueLevel difficulty d :
  user_role me ≠ "elderly" →
  (post_exercise f (Some me) today exerciseType duration fatigueLevel
     difficulty d).2 = [].
Proof.
  intros Hrole. unfold post_exercise.
  destruct (truthy exerciseType); [| done].
  destruct (is_number duration); [| done].
  destruct (f InsertExercise); [done |]. cbn [snd].
  apply String.eqb_neq in Hrole. by rewrite Hrole.
Qed.

Lemma exercise_by_other_role_example :
  (post_exercise no_faults (Some (rowToUser malee)) "2024-05-01" (VStr "walking")
     (VInt 20) VUndefined VUndefined db_family).2 = [].
Proof.
  apply (exercise_by_other_role_is_silent no_faults (rowToUser malee) "2024-05-01"
           (VStr "walking") (VInt 20) VUndefined VUndefined db_family).
  discriminate.
Defined.





(** X20: AUTOINCREMENT: messages and exercises never get a key twice.  If the
    keys of a table are distinct before a request, they are distinct after
    it, for direct and group messages and for exercise logs. *)
Theorem log_keys_stay_unique
    f sess toUserId text isGroup today exerciseType duration fatigueLevel
    hardness d :
  NoDup (message_id <$> messages d) →
  NoDup (exercise_id <$> exercises d) →
  NoDup (message_id <$>
           messages (post_messages f sess toUserId text isGroup d).1.2) ∧
  NoDup (exercise_id <$>
           exercises (post_exercise f sess today exerciseType duration
                        fatigueLevel hardness d).1.2).
Proof.
  intros Hm He. split.
  - unfold post_messages. destruct sess as [me|]; [| done].
    destruct (negb (truthy text)); [done |].
    destruct (truthy isGroup).
    + destruct (f SelectContacts); [done |]. cbn [fst snd messages set_messages].
      destruct (group_rows (user_id me) text (contact_ids d (user_id me)) (messages d))
        as (rows & -> & _ & _ & _ & Hids & Hnd).
      rewrite fmap_app. apply NoDup_app. split_and!; [done | | done].
      intros i Hi Hi'. apply list_elem_of_fmap in Hi' as (m & -> & Hm').
      rewrite Forall_forall in Hids. specialize (Hids m Hm' _ Hi). lia.
    + destruct (negb (truthy toUserId)); [done |].
      destruct (f InsertMessage); [done |]. cbn [fst snd messages set_messages].
      rewrite fmap_app. apply NoDup_app. split_and!; [done | | apply NoDup_singleton].
      intros i Hi Hi'. cbn in Hi'. apply list_elem_of_singleton in Hi'.
      apply next_id_fresh in Hi. lia.
  - unfold post_exercise. destruct sess as [me|]; [| done].
    destruct (truthy exerciseType); [| done].
    destruct (is_number duration); [| done].
    destruct (f InsertExercise); [done |]. cbn [fst snd exercises set_exercises].
    rewrite fmap_app. apply NoDup_app. split_and!; [done | | apply NoDup_singleton].
    intros i Hi Hi'. cbn in Hi'. apply list_elem_of_singleton in Hi'.
    apply next_id_fresh in Hi. lia.
Qed.

Lemma log_keys_example :
  NoDup (message_id <$>
           messages (post_messages no_faults (Some (rowToUser somchai)) VUndefined
                       (VStr "hello") (VBool true) db_family).1.2) ∧
  NoDup (exercise_id <$>
           exercises (post_exercise no_faults (Some (rowToUser somchai))
                        "2024-05-01" (VStr "walking") (VInt 20) VUndefined
                        VUndefined db_family).1.2).
Proof.
  apply (log_keys_stay_unique no_faults (Some (rowToUser somchai)) VUndefined
           (VStr "hello") (VBool true) "2024-05-01" (VStr "walking") (VInt 20)
           VUndefined VUndefined db_family); constructor.
Defined.

End Logs.

(** ** Settings *)

Section Settings.

Implicit Types (f : faults) (d : db) (sess : option user) (reg : gmap Z presence).

(** X21: Writing and reading settings: after a settings request that went
    through, the settings route returns a row in which every toggle sent
    as a number has that number and every toggle that was omitted or sent
    as anything else (the boolean false included) is 1, whatever it was
    before; the rows of other users are untouched. *)
Theorem settings_round_trip me a b c d :
  let d' := (post_settings false (Some me) a b c d).2 in
  ∃ row,
    get_settings false (Some me) d' = Reply (Some row) ∧
    (∀ n, a = VNum n → elderly_notify_exercise row = n) ∧
    (∀ n, b = VNum n → elderly_notify_checkup row = n) ∧
    (∀ n, c = VNum n → family_notify_parent_done row = n) ∧
    (is_number a = None → elderly_notify_exercise row = of_Z 1) ∧
    (is_number b = None → elderly_notify_checkup row = of_Z 1) ∧
    (is_number c = None → family_notify_parent_done row = of_Z 1) ∧
    (∀ u, u ≠ user_id me → settings d' !! u = settings d !! u).
Proof.
  cbn zeta.
  exists {| elderly_notify_exercise := number_or_1 a;
            elderly_notify_checkup := number_or_1 b;
            family_notify_parent_done := number_or_1 c |}.
  cbn. split_and!.
  - f_equal. apply lookup_insert_eq.
  - by intros n ->.
  - by intros n ->.
  - by intros n ->.
  - unfold number_or_1. by intros ->.
  - unfold number_or_1. by intros ->.
  - unfold number_or_1. by intros ->.
  - intros u Hu. by rewrite lookup_insert_ne.
Qed.

(** X22: The stored toggle decides the notification.  After an elderly
    user has posted settings, an accepted exercise log of that user makes
    no relay call when [family_notify_parent_done] was sent as a finite
    number other than 1 or as an infinity; when it was sent as the number
    1 or as a non-number (which is stored as 1), the relay is called
    exactly once for every contact of the user whose role is family, and
    for nobody else. *)
Theorem settings_toggle_controls_pushes
    f me a b c today exerciseType dur fatigueLevel hardness d :
  keys_unique d →
  user_role me = "elderly" →
  truthy exerciseType = true →
  f InsertExercise = false → f SelectSettings = false →
  f SelectFamilyContacts = false →
  let d' := (post_settings false (Some me) a b c d).2 in
  let pushes := (post_exercise f (Some me) today exerciseType (VNum dur)
                   fatigueLevel hardness d').2 in
  (∀ q, c = VNum (Finite q) → ¬ (q == 1)%Q → pushes = []) ∧
  (c = VNum Infinity ∨ c = VNum NegInfinity → pushes = []) ∧
  (is_number c = None ∨ (∃ q, c = VNum (Finite q) ∧ (q == 1)%Q) →
     (∀ k, is_family_contact d (user_id me) k → pushes_to k pushes = 1%nat) ∧
     (∀ p, p ∈ pushes → is_family_contact d (user_id me) (to p))).
Proof.
  intros Hkeys Hrole Het Hf1 Hf2 Hf3. cbn zeta.
  rewrite post_exercise_accepted by done. cbn [snd post_settings fst].
  cbn [settings set_settings]. rewrite lookup_insert_eq. cbn [family_notify_parent_done].
  rewrite Hrole, Hf2. cbn [String.eqb Ascii.eqb Bool.eqb andb negb].
  split_and!.
  - intros q -> Hq. cbn [number_or_1 is_number is_one].
    destruct (Qeq_bool q 1) eqn:E; [| done]. by apply Qeq_bool_iff in E.
  - by intros [-> | ->].
  - intros Hon.
    assert (Hone : is_one (number_or_1 c) = true).
    { destruct Hon as [Hnone | (q & -> & Hq)].
      - unfold number_or_1. by rewrite Hnone.
      - cbn. by apply Qeq_bool_iff. }
    rewrite Hone. split.
    + intros k Hk. unfold notifyFamilyOfExercise. rewrite Hf3.
      apply pushes_to_fmap; [done | by apply family_contact_ids_NoDup |].
      by apply family_contact_ids_elem.
    + intros p Hp. apply notify_pushes in Hp as (Hto & _ & _).
      by apply family_contact_ids_elem.
Qed.

Lemma settings_toggle_example :
  let d' := (post_settings false (Some (rowToUser somchai)) VUndefined VUndefined
               (VBool false) db_family).2 in
  let pushes := (post_exercise no_faults (Some (rowToUser somchai)) "2024-05-01"
                   (VStr "walking") (VNum (of_Z 20)) VUndefined VUndefined d').2 in
  (∀ q, VBool false = VNum (Finite q) → ¬ (q == 1)%Q → pushes = []) ∧
  (VBool false = VNum Infinity ∨ VBool false = VNum NegInfinity → pushes = []) ∧
  (is_number (VBool false) = None ∨
   (∃ q, VBool false = VNum (Finite q) ∧ (q == 1)%Q) →
     (∀ k, is_family_contact db_family 1 k → pushes_to k pushes = 1%nat) ∧
     (∀ p, p ∈ pushes → is_family_contact db_family 1 (to p))).
Proof.
  apply (settings_toggle_controls_pushes no_faults (rowToUser somchai) VUndefined
           VUndefined (VBool false) "2024-05-01" (VStr "walking") (of_Z 20)
           VUndefined VUndefined db_family).
  - exact db_family_keys_unique.
  - reflexivity.
  - reflexivity.
  - reflexivity.
  - reflexivity.
  - reflexivity.
Defined.

(** The number 2 switches the notification off, like 0. *)
Example toggle_sent_as_two_is_off :
  let d' := (post_settings false (Some (rowToUser somchai)) VUndefined VUndefined
               (VInt 2) db_family).2 in
  (post_exercise no_faults (Some (rowToUser somchai)) "2024-05-01"
     (VStr "walking") (VNum (of_Z 20)) VUndefined VUndefined d').2 = [].
Proof. reflexivity. Qed.

(** The boolean false does not switch the notification off: it is stored
    as 1 and the family contact is still pushed; the number 0 does. *)
Example toggle_sent_as_false_stays_on :
  let off := (post_settings false (Some (rowToUser somchai)) VUndefined VUndefined
                (VInt 0) db_family).2 in
  let kept := (post_settings false (Some (rowToUser somchai)) VUndefined VUndefined
                 (VBool false) db_family).2 in
  to <$> (post_exercise no_faults (Some (rowToUser somchai)) "2024-05-01"
            (VStr "walking") (VNum (of_Z 20)) VUndefined VUndefined off).2 = [] ∧
  to <$> (post_exercise no_faults (Some (rowToUser somchai)) "2024-05-01"
            (VStr "walking") (VNum (of_Z 20)) VUndefined VUndefined kept).2 = [2].
Proof. split; reflexivity. Qed.

(** Without a session user every route behind [requireAuth] answers 401
    unauthorized, writes nothing and makes no relay call. *)
Theorem unauthenticated_request_is_refused
    f srv phone toUserId text isGroup today
    exerciseType duration fatigueLevel hardness a b c err d :
  post_contacts_add f None phone d = (Err 401 "unauthorized", d) ∧
  post_messages f None toUserId text isGroup d = (Err 401 "unauthorized", d, []) ∧
  post_exercise f None today exerciseType duration fatigueLevel hardness d
    = (Err 401 "unauthorized", d, []) ∧
  post_settings err None a b c d = (Err 401 "unauthorized", d) ∧
  get_contacts err srv None d = Fail 401 "unauthorized" ∧
  get_exercise_today err None today d = Fail 401 "unauthorized" ∧
  get_settings err None d = Fail 401 "unauthorized".
Proof. by split_and!. Qed.

End Settings.

(** ** Examples for the constraint and error lemmas *)

Lemma request_otp_error_example :
  (post_auth_request_otp no_faults "production" (1 # 2) 1000
     "Somsri" "" "0833333333" "family" db_family).2 = db_family.
Proof.
  apply (request_otp_error_changes_nothing no_faults "production" (1 # 2) 1000
           "Somsri" "" "0833333333" "family" db_family).
  reflexivity.
Defined.

Lemma request_otp_keeps_constraints_example :
  let d' := (post_auth_request_otp no_faults "production" (1 # 2) 1000
               "Somsri" "Jaidee" "0833333333" "family" db_family).2 in
  keys_unique d' ∧ otps_wf d'.
Proof.
  apply (request_otp_keeps_constraints no_faults "production" (1 # 2) 1000
           "Somsri" "Jaidee" "0833333333" "family" db_family).
  - exact db_family_keys_unique.
  - exact db_family_otps_wf.
Defined.

Lemma contacts_add_keeps_constraints_example :
  let d' := (post_contacts_add no_faults (Some (rowToUser somchai)) "0822222222"
               db_family).2 in
  keys_unique d' ∧ otps_wf d'.
Proof.
  apply (contacts_add_keeps_constraints no_faults (Some (rowToUser somchai))
           "0822222222" db_family).
  - exact db_family_keys_unique.
  - exact db_family_otps_wf.
Defined.
